(** * Leaderboard client (src/App.js): a shallow embedding and its properties

    The React component [App] keeps its state in [useState] cells and changes
    it only through the setters; its handlers are [async] functions that
    suspend at one network request.  The embedding keeps that shape:

    - the state cells are one record [AppState];
    - every setter call is an [Update], applied to the state and written to
      the trace, so that a property can speak about what was set and how often;
    - a handler is a computation in the monad [M] (state, trace, and a JS
      completion that is either normal or a thrown error); the terminal state
      of the request it awaits is an argument of the handler;
    - [fetchUsers()] called without [await] runs its synchronous prefix in
      place; its continuation is a computation of its own;
    - a text is the sequence of the bytes of its UTF-8 form, which is how the
      source file holds its literals. *)

From Stdlib Require Import List String Ascii Bool Arith ZArith Lia.
From Stdlib Require Import DecimalString DecimalPos DecimalZ.
From Stdlib Require Import Permutation.
Import ListNotations.
Open Scope string_scope.

(** ** JavaScript values used by the component *)

Module Js.

(** [!s] on a string: only the empty string is falsy. *)
Definition truthy (s : string) : bool :=
  match s with
  | EmptyString => false
  | String _ _ => true
  end.

(** [s.includes(sub)]. *)
Fixpoint includes (s sub : string) : bool :=
  if prefix sub s then true
  else match s with
       | EmptyString => false
       | String _ rest => includes rest sub
       end.

(** The white space [String.prototype.trim] removes is the WhiteSpace and
    LineTerminator code points of ECMAScript; in UTF-8 they take one, two or
    three bytes.

    One byte: TAB, LF, VT, FF, CR (09 to 0D) and SPACE (20). *)
Definition is_space (c : ascii) : bool :=
  let n := nat_of_ascii c in
  (Nat.leb 9 n && Nat.leb n 13) || Nat.eqb n 32.

(** Two bytes: NO-BREAK SPACE U+00A0 (C2 A0). *)
Definition is_space2 (c1 c2 : ascii) : bool :=
  Nat.eqb (nat_of_ascii c1) 194 && Nat.eqb (nat_of_ascii c2) 160.

(** Three bytes: U+1680 (E1 9A 80); U+2000 to U+200A (E2 80 80 to E2 80 8A);
    LINE and PARAGRAPH SEPARATOR U+2028, U+2029 (E2 80 A8, E2 80 A9);
    U+202F (E2 80 AF); U+205F (E2 81 9F); U+3000 (E3 80 80) and the byte
    order mark U+FEFF (EF BB BF). *)
Definition is_space3 (c1 c2 c3 : ascii) : bool :=
  let n1 := nat_of_ascii c1 in
  let n2 := nat_of_ascii c2 in
  let n3 := nat_of_ascii c3 in
  (Nat.eqb n1 225 && Nat.eqb n2 154 && Nat.eqb n3 128)
  || (Nat.eqb n1 226 && Nat.eqb n2 128
      && ((Nat.leb 128 n3 && Nat.leb n3 138)
          || Nat.eqb n3 168 || Nat.eqb n3 169 || Nat.eqb n3 175))
  || (Nat.eqb n1 226 && Nat.eqb n2 129 && Nat.eqb n3 159)
  || (Nat.eqb n1 227 && Nat.eqb n2 128 && Nat.eqb n3 128)
  || (Nat.eqb n1 239 && Nat.eqb n2 187 && Nat.eqb n3 191).

(** The text without the white space at its start. *)
Fixpoint trim_start (s : string) : string :=
  match s with
  | EmptyString => EmptyString
  | String c1 rest1 =>
      if is_space c1 then trim_start rest1
      else
        match rest1 with
        | EmptyString => s
        | String c2 rest2 =>
            if is_space2 c1 c2 then trim_start rest2
            else
              match rest2 with
              | EmptyString => s
              | String c3 rest3 =>
                  if is_space3 c1 c2 c3 then trim_start rest3 else s
              end
        end
  end.

(** A text made of white space only, the empty text included. *)
Fixpoint all_space (s : string) : bool :=
  match s with
  | EmptyString => true
  | String c1 rest1 =>
      if is_space c1 then all_space rest1
      else
        match rest1 with
        | EmptyString => false
        | String c2 rest2 =>
            if is_space2 c1 c2 then all_space rest2
            else
              match rest2 with
              | EmptyString => false
              | String c3 rest3 => is_space3 c1 c2 c3 && all_space rest3
              end
        end
  end.

(** The text without the white space at its end: what is left from a
    position on is dropped when it is white space only. *)
Fixpoint trim_end (s : string) : string :=
  match s with
  | EmptyString => EmptyString
  | String c rest => if all_space s then EmptyString else String c (trim_end rest)
  end.

(** [s.trim()]. *)
Definition trim (s : string) : string := trim_end (trim_start s).

(** The decimal digits of an integer, with a minus sign when negative. *)
Definition digits (z : Z) : string :=
  NilZero.string_of_int (Z.to_int z).

(** The integer a text of decimal digits denotes. *)
Definition parse_integer (s : string) : option Z :=
  option_map Z.of_int (NilZero.int_of_string s).

(** [Number.MAX_SAFE_INTEGER], 2^53 - 1. *)
Definition MAX_SAFE_INTEGER : Z := 9007199254740991.

Definition is_safe_integer (z : Z) : bool :=
  (Z.abs z <=? MAX_SAFE_INTEGER)%Z.

(** A number, for what the component does with one: it prints it inside a
    template literal.  A safe integer prints as its decimal digits.  Any
    other number (a fraction, an integer beyond the safe range, which may
    print in exponent form, [NaN], an infinity) is held as the text
    [ToString] gives for it. *)
Inductive Number : Type :=
| SafeInteger (z : Z) (safe : is_safe_integer z = true)
| OtherNumber (text : string).

(** [`${x}`] for a number [x]. *)
Definition number_to_string (x : Number) : string :=
  match x with
  | SafeInteger z _ => digits z
  | OtherNumber text => text
  end.

(** The value of a counter that started at 0 and was incremented [n] times:
    from 2^53 on [++] no longer changes it. *)
Definition counter (n : nat) : Z :=
  Z.min (Z.of_nat n) 9007199254740992.

(** [`${count}`] for such a counter: below 10^21 an integer-valued number
    prints as its digits. *)
Definition counter_to_string (n : nat) : string :=
  digits (counter n).

(** [arr[i]]: [undefined] (here [None]) outside the array. *)
Definition index {A : Type} (arr : list A) (i : nat) : option A :=
  nth_error arr i.

(** [arr.slice(0, n)]. *)
Definition slice0 {A : Type} (n : nat) (arr : list A) : list A :=
  firstn n arr.

(** [arr.filter(Boolean)] on an array of objects and [undefined]: objects
    are truthy, [undefined] is dropped. *)
Fixpoint filter_Boolean {A : Type} (arr : list (option A)) : list A :=
  match arr with
  | [] => []
  | Some x :: rest => x :: filter_Boolean rest
  | None :: rest => filter_Boolean rest
  end.

(** An [undefined] printed by a template literal. *)
Definition undefined_text : string := "undefined".

(** The error object caught by a handler: axios puts the service's answer,
    when there is one, under [response.data]; [message] is the error's own
    text ("Network Error" when the service was not reached). *)
Record ErrorData := { data_message : option string }.
Record ErrorResponse := { data : option ErrorData }.
Record Error := { message : string; response : option ErrorResponse }.

(** [err.response?.data?.message] *)
Definition response_data_message (err : Error) : option string :=
  match response err with
  | None => None
  | Some r =>
      match data r with
      | None => None
      | Some d => data_message d
      end
  end.

(** [a || b] on an optional string and a string. *)
Definition or_else (a : option string) (b : string) : string :=
  match a with
  | Some s => if truthy s then s else b
  | None => b
  end.

(** The terminal state of a promise. *)
Inductive Settled (A : Type) : Type :=
| fulfilled (value : A)
| rejected (reason : Error).
Arguments fulfilled {A} value.
Arguments rejected {A} reason.

Definition is_fulfilled {A : Type} (r : Settled A) : bool :=
  match r with
  | fulfilled _ => true
  | rejected _ => false
  end.

End Js.

(** ** The data model *)

(** A player as the service delivers it. *)
Record User := {
  _id : string;
  name : string;
  points : Z;
  rank : Z
}.

(** The [useState] cells of [App], with the initial values of the source. *)
Record AppState := {
  users : list User;
  selectedUserId : string;
  newUserName : string;
  message : string;
  isLoading : bool;
  error : option string;
  isClearScoresModalOpen : bool;
  isClearUsersModalOpen : bool;
  isAddUserModalOpen : bool;
  isDeleteUserModalOpen : bool;
  userToDelete : option User;
  isActionsMenuOpen : bool
}.

Definition initialState : AppState := {|
  users := [];
  selectedUserId := "";
  newUserName := "";
  message := "";
  isLoading := true;
  error := None;
  isClearScoresModalOpen := false;
  isClearUsersModalOpen := false;
  isAddUserModalOpen := false;
  isDeleteUserModalOpen := false;
  userToDelete := None;
  isActionsMenuOpen := false
|}.

(** One call of a state setter. *)
Inductive Update : Type :=
| SetUsers (v : list User)
| SetSelectedUserId (v : string)
| SetNewUserName (v : string)
| SetMessage (v : string)
| SetIsLoading (v : bool)
| SetError (v : option string)
| SetIsClearScoresModalOpen (v : bool)
| SetIsClearUsersModalOpen (v : bool)
| SetIsAddUserModalOpen (v : bool)
| SetIsDeleteUserModalOpen (v : bool)
| SetUserToDelete (v : option User)
| SetIsActionsMenuOpen (v : bool).

Definition apply_update (u : Update) (st : AppState) : AppState :=
  match u with
  | SetUsers v =>
      {| users := v; selectedUserId := selectedUserId st;
         newUserName := newUserName st; message := message st;
         isLoading := isLoading st; error := error st;
         isClearScoresModalOpen := isClearScoresModalOpen st;
         isClearUsersModalOpen := isClearUsersModalOpen st;
         isAddUserModalOpen := isAddUserModalOpen st;
         isDeleteUserModalOpen := isDeleteUserModalOpen st;
         userToDelete := userToDelete st;
         isActionsMenuOpen := isActionsMenuOpen st |}
  | SetSelectedUserId v =>
      {| users := users st; selectedUserId := v;
         newUserName := newUserName st; message := message st;
         isLoading := isLoading st; error := error st;
         isClearScoresModalOpen := isClearScoresModalOpen st;
         isClearUsersModalOpen := isClearUsersModalOpen st;
         isAddUserModalOpen := isAddUserModalOpen st;
         isDeleteUserModalOpen := isDeleteUserModalOpen st;
         userToDelete := userToDelete st;
         isActionsMenuOpen := isActionsMenuOpen st |}
  | SetNewUserName v =>
      {| users := users st; selectedUserId := selectedUserId st;
         newUserName := v; message := message st;
         isLoading := isLoading st; error := error st;
         isClearScoresModalOpen := isClearScoresModalOpen st;
         isClearUsersModalOpen := isClearUsersModalOpen st;
         isAddUserModalOpen := isAddUserModalOpen st;
         isDeleteUserModalOpen := isDeleteUserModalOpen st;
         userToDelete := userToDelete st;
         isActionsMenuOpen := isActionsMenuOpen st |}
  | SetMessage v =>
      {| users := users st; selectedUserId := selectedUserId st;
         newUserName := newUserName st; message := v;
         isLoading := isLoading st; error := error st;
         isClearScoresModalOpen := isClearScoresModalOpen st;
         isClearUsersModalOpen := isClearUsersModalOpen st;
         isAddUserModalOpen := isAddUserModalOpen st;
         isDeleteUserModalOpen := isDeleteUserModalOpen st;
         userToDelete := userToDelete st;
         isActionsMenuOpen := isActionsMenuOpen st |}
  | SetIsLoading v =>
      {| users := users st; selectedUserId := selectedUserId st;
         newUserName := newUserName st; message := message st;
         isLoading := v; error := error st;
         isClearScoresModalOpen := isClearScoresModalOpen st;
         isClearUsersModalOpen := isClearUsersModalOpen st;
         isAddUserModalOpen := isAddUserModalOpen st;
         isDeleteUserModalOpen := isDeleteUserModalOpen st;
         userToDelete := userToDelete st;
         isActionsMenuOpen := isActionsMenuOpen st |}
  | SetError v =>
      {| users := users st; selectedUserId := selectedUserId st;
         newUserName := newUserName st; message := message st;
         isLoading := isLoading st; error := v;
         isClearScoresModalOpen := isClearScoresModalOpen st;
         isClearUsersModalOpen := isClearUsersModalOpen st;
         isAddUserModalOpen := isAddUserModalOpen st;
         isDeleteUserModalOpen := isDeleteUserModalOpen st;
         userToDelete := userToDelete st;
         isActionsMenuOpen := isActionsMenuOpen st |}
  | SetIsClearScoresModalOpen v =>
      {| users := users st; selectedUserId := selectedUserId st;
         newUserName := newUserName st; message := message st;
         isLoading := isLoading st; error := error st;
         isClearScoresModalOpen := v;
         isClearUsersModalOpen := isClearUsersModalOpen st;
         isAddUserModalOpen := isAddUserModalOpen st;
         isDeleteUserModalOpen := isDeleteUserModalOpen st;
         userToDelete := userToDelete st;
         isActionsMenuOpen := isActionsMenuOpen st |}
  | SetIsClearUsersModalOpen v =>
      {| users := users st; selectedUserId := selectedUserId st;
         newUserName := newUserName st; message := message st;
         isLoading := isLoading st; error := error st;
         isClearScoresModalOpen := isClearScoresModalOpen st;
         isClearUsersModalOpen := v;
         isAddUserModalOpen := isAddUserModalOpen st;
         isDeleteUserModalOpen := isDeleteUserModalOpen st;
         userToDelete := userToDelete st;
         isActionsMenuOpen := isActionsMenuOpen st |}
  | SetIsAddUserModalOpen v =>
      {| users := users st; selectedUserId := selectedUserId st;
         newUserName := newUserName st; message := message st;
         isLoading := isLoading st; error := error st;
         isClearScoresModalOpen := isClearScoresModalOpen st;
         isClearUsersModalOpen := isClearUsersModalOpen st;
         isAddUserModalOpen := v;
         isDeleteUserModalOpen := isDeleteUserModalOpen st;
         userToDelete := userToDelete st;
         isActionsMenuOpen := isActionsMenuOpen st |}
  | SetIsDeleteUserModalOpen v =>
      {| users := users st; selectedUserId := selectedUserId st;
         newUserName := newUserName st; message := message st;
         isLoading := isLoading st; error := error st;
         isClearScoresModalOpen := isClearScoresModalOpen st;
         isClearUsersModalOpen := isClearUsersModalOpen st;
         isAddUserModalOpen := isAddUserModalOpen st;
         isDeleteUserModalOpen := v;
         userToDelete := userToDelete st;
         isActionsMenuOpen := isActionsMenuOpen st |}
  | SetUserToDelete v =>
      {| users := users st; selectedUserId := selectedUserId st;
         newUserName := newUserName st; message := message st;
         isLoading := isLoading st; error := error st;
         isClearScoresModalOpen := isClearScoresModalOpen st;
         isClearUsersModalOpen := isClearUsersModalOpen st;
         isAddUserModalOpen := isAddUserModalOpen st;
         isDeleteUserModalOpen := isDeleteUserModalOpen st;
         userToDelete := v;
         isActionsMenuOpen := isActionsMenuOpen st |}
  | SetIsActionsMenuOpen v =>
      {| users := users st; selectedUserId := selectedUserId st;
         newUserName := newUserName st; message := message st;
         isLoading := isLoading st; error := error st;
         isClearScoresModalOpen := isClearScoresModalOpen st;
         isClearUsersModalOpen := isClearUsersModalOpen st;
         isAddUserModalOpen := isAddUserModalOpen st;
         isDeleteUserModalOpen := isDeleteUserModalOpen st;
         userToDelete := userToDelete st;
         isActionsMenuOpen := v |}
  end.

(** ** What a handler does to the outside *)

Inductive Method : Type := GET | POST | DELETE.

(** The JSON body of a create request: [{ name }] or [{ name, points }]. *)
Record Body := { body_name : string; body_points : option Z }.

Record Request := { method : Method; url : string; body : option Body }.

(** The second argument of a [console.error] call. *)
Inductive Logged : Type :=
| LoggedError (err : Js.Error)
| LoggedText (text : option string).

Inductive Event : Type :=
| EvSet (u : Update)
| EvRequest (r : Request)
| EvConsoleError (label : string) (what : Logged)
| EvFetchUsers
| EvPreventDefault.

(** ** The handler monad: state, trace and completion *)

Inductive Completion (A : Type) : Type :=
| Normal (a : A)
| Thrown (e : Js.Error).
Arguments Normal {A} a.
Arguments Thrown {A} e.

Definition M (A : Type) : Type :=
  AppState -> Completion A * AppState * list Event.

Definition ret {A : Type} (a : A) : M A :=
  fun st => (Normal a, st, []).

Definition bind {A B : Type} (m : M A) (k : A -> M B) : M B :=
  fun st =>
    match m st with
    | (Normal a, st1, t1) =>
        match k a st1 with
        | (c, st2, t2) => (c, st2, (t1 ++ t2)%list)
        end
    | (Thrown e, st1, t1) => (Thrown e, st1, t1)
    end.

Definition throw {A : Type} (e : Js.Error) : M A :=
  fun st => (Thrown e, st, []).

(** [try { body } catch (err) { handler }] *)
Definition try_catch {A : Type} (body : M A) (handler : Js.Error -> M A) : M A :=
  fun st =>
    match body st with
    | (Normal a, st1, t1) => (Normal a, st1, t1)
    | (Thrown e, st1, t1) =>
        match handler e st1 with
        | (c, st2, t2) => (c, st2, (t1 ++ t2)%list)
        end
    end.

(** [try { body } finally { fin }]: [fin] runs on both completions; its own
    throw replaces the completion of [body]. *)
Definition finally {A : Type} (body : M A) (fin : M unit) : M A :=
  fun st =>
    match body st with
    | (c, st1, t1) =>
        match fin st1 with
        | (Normal _, st2, t2) => (c, st2, (t1 ++ t2)%list)
        | (Thrown e, st2, t2) => (Thrown e, st2, (t1 ++ t2)%list)
        end
    end.

Definition emit (ev : Event) : M unit :=
  fun st => (Normal tt, st, [ev]).

Definition set (u : Update) : M unit :=
  fun st => (Normal tt, apply_update u st, [EvSet u]).

(** [await p] for a promise whose terminal state is [outcome]. *)
Definition await {A : Type} (outcome : Js.Settled A) : M A :=
  match outcome with
  | Js.fulfilled value => ret value
  | Js.rejected reason => throw reason
  end.

Notation "x <- m ;; k" := (bind m (fun x => k))
  (at level 61, m at next level, right associativity).
Notation "m ;; k" := (bind m (fun _ => k))
  (at level 61, right associativity).

Definition completion {A : Type} (r : Completion A * AppState * list Event) : Completion A :=
  fst (fst r).
Definition state_after {A : Type} (r : Completion A * AppState * list Event) : AppState :=
  snd (fst r).
Definition trace {A : Type} (r : Completion A * AppState * list Event) : list Event :=
  snd r.

(** ** The setters and the other primitives of the handlers *)

Definition API_URL : string := "http://localhost:5000/api".

Definition setUsers (v : list User) : M unit := set (SetUsers v).
Definition setSelectedUserId (v : string) : M unit := set (SetSelectedUserId v).
Definition setNewUserName (v : string) : M unit := set (SetNewUserName v).
Definition setMessage (v : string) : M unit := set (SetMessage v).
Definition setIsLoading (v : bool) : M unit := set (SetIsLoading v).
Definition setError (v : option string) : M unit := set (SetError v).
Definition setIsClearScoresModalOpen (v : bool) : M unit := set (SetIsClearScoresModalOpen v).
Definition setIsClearUsersModalOpen (v : bool) : M unit := set (SetIsClearUsersModalOpen v).
Definition setIsAddUserModalOpen (v : bool) : M unit := set (SetIsAddUserModalOpen v).
Definition setIsDeleteUserModalOpen (v : bool) : M unit := set (SetIsDeleteUserModalOpen v).
Definition setUserToDelete (v : option User) : M unit := set (SetUserToDelete v).
Definition setIsActionsMenuOpen (v : bool) : M unit := set (SetIsActionsMenuOpen v).

(** [setSelectedUserId(prevId => ...)]: the updater receives the selection
    held when the update is applied. *)
Definition setSelectedUserIdWith (updater : string -> string) : M unit :=
  fun st => setSelectedUserId (updater (selectedUserId st)) st.

Definition console_error (label : string) (what : Logged) : M unit :=
  emit (EvConsoleError label what).

(** [axios.get(url)], [axios.post(url, body)], [axios.delete(url)]: the
    request leaves; what comes back is the promise's terminal state. *)
Definition axios_get (u : string) : M unit :=
  emit (EvRequest {| method := GET; url := u; body := None |}).
Definition axios_post (u : string) (b : option Body) : M unit :=
  emit (EvRequest {| method := POST; url := u; body := b |}).
Definition axios_delete (u : string) : M unit :=
  emit (EvRequest {| method := DELETE; url := u; body := None |}).

(** The message every mutating handler derives from a caught error. *)
Definition network_or (err : Js.Error) (otherwise : string) : string :=
  if Js.message err =? "Network Error"
  then "Network Error: Check server connection."
  else otherwise.

Definition quote : string := String "034"%char EmptyString.

(** ** fetchUsers *)

Definition fetch_network_error_text : string :=
  "Network Error: Cannot connect to the server. Please make sure your Node.js backend is running on port 5000 and there are no errors in its terminal.".

(** [!response.data.find(u => u._id === prevId)] *)
Definition not_found (prevId : string) (response_data : list User) : bool :=
  match find (fun u => _id u =? prevId) response_data with
  | Some _ => false
  | None => true
  end.

(** The updater given to [setSelectedUserId] when the fetched list has a
    first element [first]. *)
Definition snap_to_first (response_data : list User) (first : User)
    (prevId : string) : string :=
  if negb (Js.truthy prevId) || not_found prevId response_data
  then _id first
  else prevId.

(** [fetchUsers] up to its [await]: what a call that is not awaited runs
    in place. *)
Definition fetchUsers_request : M unit :=
  emit EvFetchUsers ;;
  setIsLoading true ;;
  setError None ;;
  axios_get (API_URL ++ "/users").

(** [fetchUsers] from its [await] on, [outcome] being the terminal state of
    the GET.  [response.data.length > 0] with [response.data[0]] is the match
    on the list. *)
Definition fetchUsers_settle (outcome : Js.Settled (list User)) : M unit :=
  finally
    (try_catch
       (response_data <- await outcome ;;
        setUsers response_data ;;
        match response_data with
        | first :: _ => setSelectedUserIdWith (snap_to_first response_data first)
        | [] => setSelectedUserId ""
        end)
       (fun err =>
          console_error "Error fetching users:" (LoggedError err) ;;
          if Js.message err =? "Network Error"
          then setError (Some fetch_network_error_text)
          else setError (Some ("An error occurred: " ++ Js.message err))))
    (setIsLoading false).

Definition fetchUsers (outcome : Js.Settled (list User)) : M unit :=
  fetchUsers_request ;;
  fetchUsers_settle outcome.

(** ** handleGenerateTenUsers *)

Definition adjectives : list string :=
  ["Swift"; "Silent"; "Golden"; "Iron"; "Cosmic"; "Shadow"; "Crystal";
   "Solar"; "Lunar"; "Crimson"; "Azure"; "Jade"].

Definition nouns : list string :=
  ["Jaguar"; "Phoenix"; "Spectre"; "Golem"; "Voyager"; "Ninja"; "Dragon";
   "Flare"; "Hunter"; "Warden"; "Knight"; "Sorcerer"].

(** An array element inside a template literal. *)
Definition element_text (arr : list string) (i : nat) : string :=
  match Js.index arr i with
  | Some s => s
  | None => Js.undefined_text
  end.

(** The name built by iteration [i] of the loop.  [floor_random n] is the
    value of the [n]-th evaluation of [Math.floor(Math.random() * 12)]. *)
Definition random_name (floor_random : nat -> nat) (i : nat) : string :=
  element_text adjectives (floor_random (2 * i)%nat) ++ " " ++
  element_text nouns (floor_random (2 * i + 1)%nat).

(** A promise of the batch is named by the iteration that created it. *)
Definition Promise : Type := nat.

(** [for (let i = ...; i < 10; i++) { promises.push(axios.post(...)) }] with
    [remaining] iterations to go. *)
Fixpoint generate_loop (floor_random : nat -> nat) (remaining i : nat)
    (promises : list Promise) : M (list Promise) :=
  match remaining with
  | O => ret promises
  | S remaining' =>
      axios_post (API_URL ++ "/users")
        (Some {| body_name := random_name floor_random i;
                 body_points := Some 0%Z |}) ;;
      generate_loop floor_random remaining' (S i) (promises ++ [i])%list
  end.

(** [Promise.allSettled(promises)]: one terminal state per promise, in the
    order of the array; it never rejects. *)
Definition allSettled {A : Type} (outcomes : Promise -> Js.Settled A)
    (promises : list Promise) : list (Js.Settled A) :=
  map outcomes promises.

(** [results.forEach(result => ...)], threading [createdCount]. *)
Fixpoint count_created (results : list (Js.Settled User)) (createdCount : nat)
    : M nat :=
  match results with
  | [] => ret createdCount
  | result :: rest =>
      match result with
      | Js.fulfilled _ => count_created rest (S createdCount)
      | Js.rejected reason =>
          console_error "Could not create a random user:"
            (LoggedText (Js.response_data_message reason)) ;;
          count_created rest createdCount
      end
  end.

(** [`Generated ${createdCount} new random players!`] *)
Definition generated_text (createdCount : nat) : string :=
  "Generated " ++ Js.counter_to_string createdCount
  ++ " new random players!".

Definition none_generated_text : string :=
  "Failed to generate new users. They might already exist.".

Definition handleGenerateTenUsers (floor_random : nat -> nat)
    (outcomes : Promise -> Js.Settled User) : M unit :=
  setIsLoading true ;;
  promises <- generate_loop floor_random 10 0 [] ;;
  finally
    (try_catch
       (createdCount <- count_created (allSettled outcomes promises) 0 ;;
        if (0 <? createdCount)%nat
        then
          setMessage (generated_text createdCount) ;;
          fetchUsers_request
        else
          setMessage none_generated_text)
       (fun err => setError (Some "An error occurred while generating users.")))
    (setIsLoading false).

(** ** handleAddUser

    [render] is the render whose cells the handler closes over: it reads
    [newUserName] from there, whatever the state has become meanwhile. *)

Definition handleAddUser (render : AppState) (outcome : Js.Settled User)
    : M unit :=
  emit EvPreventDefault ;;
  if negb (Js.truthy (Js.trim (newUserName render)))
  then ret tt
  else
    try_catch
      (axios_post (API_URL ++ "/users")
         (Some {| body_name := newUserName render; body_points := None |}) ;;
       response_data <- await outcome ;;
       setMessage ("User " ++ quote ++ name response_data ++ quote
                   ++ " added successfully!") ;;
       setNewUserName "" ;;
       setIsAddUserModalOpen false ;;
       fetchUsers_request)
      (fun err =>
         console_error "Error adding user:" (LoggedError err) ;;
         let errorMessage :=
           Js.or_else (Js.response_data_message err)
             (network_or err "Failed to add user.") in
         setMessage ("Error: " ++ errorMessage)).

(** ** handleClaimPoints *)

(** What the claim endpoint answers: [{ updatedUser, pointsClaimed }];
    [updatedUser] may be missing from the object. *)
Record ClaimData := { updatedUser : option User; pointsClaimed : Js.Number }.

(** The bytes that open the claim message in the source file. *)
Definition claim_mark : string :=
  String "239"%char (String "163"%char (String "191"%char
  (String "195"%char (String "188"%char (String "195"%char
  (String "169"%char (String "195"%char (String "162"%char
  EmptyString)))))))).

(** [`... You claimed ${pointsClaimed} points for ${updatedUser.name}!`] *)
Definition claim_text (amount : Js.Number) (who : string) : string :=
  claim_mark ++ " You claimed " ++ Js.number_to_string amount
  ++ " points for " ++ who ++ "!".

(** [updatedUser.name]: reading a property of [undefined] throws. *)
Definition updatedUser_name (d : ClaimData) : M string :=
  match updatedUser d with
  | Some u => ret (name u)
  | None =>
      throw {| Js.message := "Cannot read properties of undefined (reading 'name')";
               Js.response := None |}
  end.

Definition handleClaimPoints (render : AppState) (outcome : Js.Settled ClaimData)
    : M unit :=
  if negb (Js.truthy (selectedUserId render))
  then setMessage "Please select a user first."
  else
    try_catch
      (axios_post (API_URL ++ "/users/" ++ selectedUserId render ++ "/claim") None ;;
       response_data <- await outcome ;;
       updated_name <- updatedUser_name response_data ;;
       setMessage (claim_text (pointsClaimed response_data) updated_name) ;;
       fetchUsers_request)
      (fun err =>
         console_error "Error claiming points:" (LoggedError err) ;;
         setMessage (network_or err "Failed to claim points.")).

(** ** The confirm handlers of the destructive dialogs *)

Definition handleClearAllScores (outcome : Js.Settled unit) : M unit :=
  finally
    (try_catch
       (axios_post (API_URL ++ "/users/clear-scores") None ;;
        await outcome ;;
        setMessage "All scores have been cleared successfully." ;;
        fetchUsers_request)
       (fun err =>
          console_error "Error clearing scores:" (LoggedError err) ;;
          setMessage (network_or err "Failed to clear scores.")))
    (setIsClearScoresModalOpen false).

Definition handleClearAllUsers (outcome : Js.Settled unit) : M unit :=
  finally
    (try_catch
       (axios_delete (API_URL ++ "/users") ;;
        await outcome ;;
        setMessage "All users have been deleted." ;;
        fetchUsers_request)
       (fun err =>
          console_error "Error deleting all users:" (LoggedError err) ;;
          setMessage (network_or err "Failed to delete all users.")))
    (setIsClearUsersModalOpen false).

Definition handleDeleteUser (render : AppState) (outcome : Js.Settled unit)
    : M unit :=
  match userToDelete render with
  | None => ret tt
  | Some target =>
      finally
        (try_catch
           (axios_delete (API_URL ++ "/users/" ++ _id target) ;;
            await outcome ;;
            setMessage ("User " ++ quote ++ name target ++ quote ++ " was deleted.") ;;
            setIsDeleteUserModalOpen false ;;
            setUserToDelete None ;;
            fetchUsers_request)
           (fun err =>
              console_error "Error deleting user:" (LoggedError err) ;;
              setMessage (network_or err "Failed to delete user.")))
        (setUserToDelete None)
  end.

(** ** The inline handlers of the markup *)

(** [onChange={(e) => setSelectedUserId(e.target.value)}] of the select. *)
Definition select_onChange (target_value : string) : M unit :=
  setSelectedUserId target_value.

(** The values of the options the select offers for choosing: one per player
    of the list; the placeholder option with the empty value is disabled. *)
Definition select_options (st : AppState) : list string :=
  map _id (users st).

(** ** Podium *)

Definition podiumOrder : list nat := [1; 0; 2]%nat.

(** The evaluations of the callback of [podiumOrder.map(index =>
    topUsers[index])]: the index read and what the read gives. *)
Definition podiumLookups (topUsers : list User) : list (nat * option User) :=
  map (fun index => (index, Js.index topUsers index)) podiumOrder.

(** [podiumOrder.map(index => topUsers[index]).filter(Boolean)] *)
Definition podiumUsers (topUsers : list User) : list User :=
  Js.filter_Boolean (map snd (podiumLookups topUsers)).

(** The indices at which [topUsers] is read, in order. *)
Definition podiumReads (topUsers : list User) : list nat :=
  map fst (podiumLookups topUsers).

(** [const topThreeUsers = users.slice(0, 3)] *)
Definition topThreeUsers (st : AppState) : list User :=
  Js.slice0 3 (users st).

(** The podium of a player list, as [App] renders it. *)
Definition Podium (players : list User) : list User :=
  podiumUsers (Js.slice0 3 players).

(** ** The message timer effect

    [useEffect(() => { if (message) { const timer = setTimeout(() =>
    setMessage(''), 4000); return () => clearTimeout(timer); } }, [message])]

    React runs the effect after the commit of a render in which [message]
    differs from the previous render's, and runs the cleanup returned by the
    previous run first; setting the cell to the value it holds gives no new
    run.  Time is the host's clock in milliseconds. *)

Module MessageTimer.

Inductive TimerOp : Type :=
| Started (id : nat) (due : N)
| Cleared (id : nat)
| Fired (id : nat).

Record State := {
  message : string;
  clock : N;
  (** the timeouts that are pending: identifier and due time *)
  live : list (nat * N);
  next_id : nat;
  (** the cleanup returned by the last run of the effect: the timer it clears *)
  cleanup : option nat;
  ops : list TimerOp
}.

(** The component after mounting at time [t]: the message is empty and the
    first run of the effect has started nothing. *)
Definition mounted (t : N) : State :=
  {| message := ""; clock := t; live := []; next_id := 0;
     cleanup := None; ops := [] |}.

(** [setTimeout(callback, delay)] *)
Definition setTimeout (delay : N) (st : State) : nat * State :=
  (next_id st,
   {| message := message st; clock := clock st;
      live := (live st ++ [(next_id st, (clock st + delay)%N)])%list;
      next_id := S (next_id st);
      cleanup := cleanup st;
      ops := (ops st ++ [Started (next_id st) (clock st + delay)%N])%list |}).

Definition without (id : nat) (l : list (nat * N)) : list (nat * N) :=
  filter (fun p => negb (Nat.eqb (fst p) id)) l.

(** [clearTimeout(id)]: nothing happens for a timer that fired already. *)
Definition clearTimeout (id : nat) (st : State) : State :=
  {| message := message st; clock := clock st;
     live := without id (live st);
     next_id := next_id st;
     cleanup := cleanup st;
     ops := (ops st ++ [Cleared id])%list |}.

Definition with_cleanup (c : option nat) (st : State) : State :=
  {| message := message st; clock := clock st; live := live st;
     next_id := next_id st; cleanup := c; ops := ops st |}.

Definition with_message (text : string) (st : State) : State :=
  {| message := text; clock := clock st; live := live st;
     next_id := next_id st; cleanup := cleanup st; ops := ops st |}.

(** The cleanup of the previous run: [() => clearTimeout(timer)]. *)
Definition run_cleanup (st : State) : State :=
  match cleanup st with
  | Some timer => with_cleanup None (clearTimeout timer st)
  | None => st
  end.

(** The body of the effect. *)
Definition run_effect (st : State) : State :=
  if Js.truthy (message st)
  then
    match setTimeout 4000 st with
    | (timer, st') => with_cleanup (Some timer) st'
    end
  else with_cleanup None st.

(** [setMessage(text)], the only setting of its tick, followed by the render
    it causes. *)
Definition setMessage (text : string) (st : State) : State :=
  if text =? message st
  then st
  else run_effect (run_cleanup (with_message text st)).

(** Several [setMessage] calls made in one tick, in order: React applies
    them together and renders once, with the value set last; the effect sees
    only that value. *)
Definition setMessages (texts : list string) (st : State) : State :=
  match rev texts with
  | [] => st
  | text :: _ => setMessage text st
  end.

(** The pending timer that is due first. *)
Fixpoint earliest (l : list (nat * N)) : option (nat * N) :=
  match l with
  | [] => None
  | p :: rest =>
      match earliest rest with
      | None => Some p
      | Some q => if (snd p <=? snd q)%N then Some p else Some q
      end
  end.

Definition next_due (t : N) (st : State) : option (nat * N) :=
  match earliest (live st) with
  | Some p => if (snd p <=? t)%N then Some p else None
  | None => None
  end.

(** A timer fires: it is no longer pending and its callback
    [() => setMessage('')] runs at its due time. *)
Definition fire (p : nat * N) (st : State) : State :=
  setMessage ""
    {| message := message st;
       clock := N.max (clock st) (snd p);
       live := without (fst p) (live st);
       next_id := next_id st;
       cleanup := cleanup st;
       ops := (ops st ++ [Fired (fst p)])%list |}.

Fixpoint run_timers (fuel : nat) (t : N) (st : State) : State :=
  match fuel with
  | O => st
  | S fuel' =>
      match next_due t st with
      | Some p => run_timers fuel' t (fire p st)
      | None => st
      end
  end.

(** The clock reaches [t]: every timer due by then fires, in order. *)
Definition advance_to (t : N) (st : State) : State :=
  let st' := run_timers (List.length (live st)) t st in
  {| message := message st'; clock := N.max (clock st') t;
     live := live st'; next_id := next_id st';
     cleanup := cleanup st'; ops := ops st' |}.

(** The notification [text] is set at time [t]. *)
Definition notify_at (t : N) (text : string) (st : State) : State :=
  setMessage text (advance_to t st).

(** The notifications [texts] are set in one tick at time [t]. *)
Definition notify_several_at (t : N) (texts : list string) (st : State) : State :=
  setMessages texts (advance_to t st).

(** What happens to the component over time: one notification set in a tick
    of its own, time passing, or several notifications set in one tick. *)
Inductive Action : Type :=
| Notify (t : N) (text : string)
| Wait (t : N)
| NotifySeveral (t : N) (texts : list string).

Definition step (st : State) (a : Action) : State :=
  match a with
  | Notify t text => notify_at t text st
  | Wait t => advance_to t st
  | NotifySeveral t texts => notify_several_at t texts st
  end.

Definition run (actions : list Action) (st : State) : State :=
  fold_left step actions st.

(** At most one timer is pending, and it is the one the cleanup of the last
    effect run would clear. *)
Definition single_timer (st : State) : Prop :=
  match live st with
  | [] => True
  | [p] => cleanup st = Some (fst p)
  | _ :: _ :: _ => False
  end.

(** The state is the same but for the clock. *)
Definition same_but_clock (st st' : State) : Prop :=
  message st' = message st /\ live st' = live st /\
  cleanup st' = cleanup st /\ next_id st' = next_id st /\ ops st' = ops st.

(** What holds of the component from mounting on: no timer is pending while
    the message is empty; while a message is shown exactly one timer is
    pending, it is the one the last cleanup would clear, and it is due within
    four seconds. *)
Definition healthy (st : State) : Prop :=
  match live st with
  | [] => message st = ""
  | [p] => message st <> "" /\ cleanup st = Some (fst p)
           /\ (snd p <= clock st + 4000)%N
  | _ :: _ :: _ => False
  end.

End MessageTimer.

(** ** What is rendered

    The conditions of the JSX that [App] returns, as a function of the
    cells. *)

(** The block under [!isLoading && !error]. *)
Record Board := {
  (** [topThreeUsers.length > 0 && <Podium topUsers={topThreeUsers} />] *)
  board_podium : option (list User);
  (** [users.length > 0 && <h2>Full Rankings</h2>] *)
  board_heading : bool;
  (** the rows of the table; none stands for the "No users found" row *)
  board_rows : list User
}.

(** The buttons of the actions menu. *)
Record ActionsMenu := {
  generate_disabled : bool;
  reset_disabled : bool;
  delete_all_disabled : bool
}.

Record View := {
  (** the add-player form and the value of its input *)
  view_add_dialog : option string;
  (** the list of players to delete *)
  view_delete_list : option (list User);
  view_reset_dialog : bool;
  view_delete_all_dialog : bool;
  (** the confirmation for one player *)
  view_confirm_delete : option User;
  view_menu : option ActionsMenu;
  view_select_value : string;
  (** value and label of the options after the disabled placeholder *)
  view_select_options : list (string * string);
  view_select_disabled : bool;
  view_claim_disabled : bool;
  view_message : option string;
  view_loading : bool;
  view_error : option string;
  view_board : option Board
}.

(** [error && ...]: [null] and the empty string render nothing. *)
Definition truthy_error (e : option string) : bool :=
  match e with
  | Some text => Js.truthy text
  | None => false
  end.

(** [users.length === 0] *)
Definition no_users (st : AppState) : bool :=
  Nat.eqb (List.length (users st)) 0.

Definition render (st : AppState) : View :=
  {| view_add_dialog :=
       if isAddUserModalOpen st then Some (newUserName st) else None;
     view_delete_list :=
       if isDeleteUserModalOpen st then Some (users st) else None;
     view_reset_dialog := isClearScoresModalOpen st;
     view_delete_all_dialog := isClearUsersModalOpen st;
     view_confirm_delete := userToDelete st;
     view_menu :=
       if isActionsMenuOpen st
       then Some {| generate_disabled := isLoading st;
                    reset_disabled := no_users st;
                    delete_all_disabled := no_users st |}
       else None;
     view_select_value := selectedUserId st;
     view_select_options := map (fun user => (_id user, name user)) (users st);
     view_select_disabled := no_users st;
     view_claim_disabled := negb (Js.truthy (selectedUserId st));
     view_message := if Js.truthy (message st) then Some (message st) else None;
     view_loading := isLoading st;
     view_error := if truthy_error (error st) then error st else None;
     view_board :=
       if negb (isLoading st) && negb (truthy_error (error st))
       then Some {| board_podium :=
                      if (0 <? List.length (topThreeUsers st))%nat
                      then Some (podiumUsers (topThreeUsers st))
                      else None;
                    board_heading := (0 <? List.length (users st))%nat;
                    board_rows := users st |}
       else None |}.

(** ** Names the generator can build *)


(** ** What can happen to the component

    One step of the mounted component: a handler runs, with any render as its
    closure and any terminal state for its request; a fetch is started or one
    in flight settles; the user picks one of the options the select offers;
    or one of the inline handlers of the markup sets its cell. *)

(** The setters the inline handlers of the markup and the timer call:
    the dialog flags, the typed name, the player to delete, the menu flag
    and the message. *)
Definition is_inline (u : Update) : bool :=
  match u with
  | SetUsers _ | SetSelectedUserId _ | SetIsLoading _ | SetError _ => false
  | SetNewUserName _ | SetMessage _
  | SetIsClearScoresModalOpen _ | SetIsClearUsersModalOpen _
  | SetIsAddUserModalOpen _ | SetIsDeleteUserModalOpen _
  | SetUserToDelete _ | SetIsActionsMenuOpen _ => true
  end.

Inductive UiStep : AppState -> AppState -> Prop :=
| ui_fetch_request (st : AppState) :
    UiStep st (state_after (fetchUsers_request st))
| ui_fetch_settle (st : AppState) (outcome : Js.Settled (list User)) :
    UiStep st (state_after (fetchUsers_settle outcome st))
| ui_generate (st : AppState) (floor_random : nat -> nat)
    (outcomes : Promise -> Js.Settled User) :
    UiStep st (state_after (handleGenerateTenUsers floor_random outcomes st))
| ui_add (st closure : AppState) (outcome : Js.Settled User) :
    UiStep st (state_after (handleAddUser closure outcome st))
| ui_claim (st closure : AppState) (outcome : Js.Settled ClaimData) :
    UiStep st (state_after (handleClaimPoints closure outcome st))
| ui_clear_scores (st : AppState) (outcome : Js.Settled unit) :
    UiStep st (state_after (handleClearAllScores outcome st))
| ui_clear_users (st : AppState) (outcome : Js.Settled unit) :
    UiStep st (state_after (handleClearAllUsers outcome st))
| ui_delete (st closure : AppState) (outcome : Js.Settled unit) :
    UiStep st (state_after (handleDeleteUser closure outcome st))
| ui_select (st : AppState) (target_value : string) :
    In target_value (select_options st) ->
    UiStep st (state_after (select_onChange target_value st))
| ui_inline (st : AppState) (u : Update) :
    is_inline u = true ->
    UiStep st (apply_update u st).

(** The states the component can be in after mounting. *)
Inductive Reachable : AppState -> Prop :=
| reach_initial : Reachable initialState
| reach_step (st st' : AppState) :
    Reachable st -> UiStep st st' -> Reachable st'.

(** The selection is absent or names a player of the list. *)
Definition selection_listed (st : AppState) : Prop :=
  selectedUserId st = "" \/ In (selectedUserId st) (map _id (users st)).

(** The error is absent or one of the two texts of a failed fetch. *)
Definition error_from_fetch (st : AppState) : Prop :=
  error st = None \/
  error st = Some fetch_network_error_text \/
  exists text, error st = Some ("An error occurred: " ++ text).

(** ** Reading a trace *)

Definition is_request (ev : Event) : bool :=
  match ev with
  | EvRequest _ => true
  | _ => false
  end.

Definition is_setMessage (ev : Event) : bool :=
  match ev with
  | EvSet (SetMessage _) => true
  | _ => false
  end.

Definition is_fetchUsers (ev : Event) : bool :=
  match ev with
  | EvFetchUsers => true
  | _ => false
  end.

Definition is_console_error (ev : Event) : bool :=
  match ev with
  | EvConsoleError _ _ => true
  | _ => false
  end.

Definition count (p : Event -> bool) (t : list Event) : nat :=
  List.length (filter p t).

(** The create request of iteration [i]. *)
Definition create_request (floor_random : nat -> nat) (i : nat) : Event :=
  EvRequest {| method := POST; url := API_URL ++ "/users";
               body := Some {| body_name := random_name floor_random i;
                               body_points := Some 0%Z |} |}.

(** What [forEach] logs: one line per rejected request, in order. *)
Fixpoint rejection_logs (results : list (Js.Settled User)) : list Event :=
  match results with
  | [] => []
  | Js.fulfilled _ :: rest => rejection_logs rest
  | Js.rejected reason :: rest =>
      EvConsoleError "Could not create a random user:"
        (LoggedText (Js.response_data_message reason)) :: rejection_logs rest
  end.

(** How many of the results are fulfilled. *)
Definition succeeded (results : list (Js.Settled User)) : nat :=
  List.length (filter Js.is_fulfilled results).


(** What the handler does once the ten results are in. *)
Definition aggregate_events (createdCount : nat) : list Event :=
  if (0 <? createdCount)%nat
  then [EvSet (SetMessage (generated_text createdCount));
        EvFetchUsers;
        EvSet (SetIsLoading true);
        EvSet (SetError None);
        EvRequest {| method := GET; url := API_URL ++ "/users"; body := None |}]
  else [EvSet (SetMessage none_generated_text)].

(** ** Courses of happenings *)

(** The same happenings by name, with what each does, so that a course of
    them can be followed. *)
Inductive Happening : Type :=
| FetchStarts
| FetchAnswers (outcome : Js.Settled (list User))
| Generates (floor_random : nat -> nat) (outcomes : Promise -> Js.Settled User)
| Adds (closure : AppState) (outcome : Js.Settled User)
| Claims (closure : AppState) (outcome : Js.Settled ClaimData)
| ClearsScores (outcome : Js.Settled unit)
| ClearsUsers (outcome : Js.Settled unit)
| Deletes (closure : AppState) (outcome : Js.Settled unit)
| Selects (target_value : string)
| Sets (u : Update).

Definition happen (h : Happening) : M unit :=
  match h with
  | FetchStarts => fetchUsers_request
  | FetchAnswers outcome => fetchUsers_settle outcome
  | Generates floor_random outcomes => handleGenerateTenUsers floor_random outcomes
  | Adds closure outcome => handleAddUser closure outcome
  | Claims closure outcome => handleClaimPoints closure outcome
  | ClearsScores outcome => handleClearAllScores outcome
  | ClearsUsers outcome => handleClearAllUsers outcome
  | Deletes closure outcome => handleDeleteUser closure outcome
  | Selects target_value => select_onChange target_value
  | Sets u => set u
  end.

(** The state after a course of happenings. *)
Definition happen_all (course : list Happening) (st : AppState) : AppState :=
  fold_left (fun at_hand h => state_after (happen h at_hand)) course st.

(** A happening that at state [st] neither starts a fetch (no call of
    [fetchUsers] in its trace) nor is the failing answer of one; a setter
    call among them is one of the inline handlers'. *)
Definition without_fetch (h : Happening) (st : AppState) : bool :=
  match h with
  | FetchAnswers (Js.rejected _) => false
  | Sets u => is_inline u
  | _ => Nat.eqb (count is_fetchUsers (trace (happen h st))) 0
  end.

(** A course in which no happening starts a fetch or is the failing answer of
    one. *)
Fixpoint course_without_fetch (course : list Happening) (st : AppState) : bool :=
  match course with
  | [] => true
  | h :: rest =>
      without_fetch h st && course_without_fetch rest (state_after (happen h st))
  end.

(** ** Sample players *)

Definition ann : User := {| _id := "a"; name := "Ann"; points := 50; rank := 1 |}.
Definition bo : User := {| _id := "b"; name := "Bo"; points := 30; rank := 2 |}.
Definition cy : User := {| _id := "c"; name := "Cy"; points := 10; rank := 3 |}.
Definition di : User := {| _id := "d"; name := "Di"; points := 5; rank := 4 |}.

(** Seven points, as the claim endpoint may award them. *)
Definition seven : Js.Number := Js.SafeInteger 7 eq_refl.

(** Two no-break spaces (U+00A0, bytes C2 A0) and a space. *)
Definition no_break_spaces : string :=
  String "194" (String "160" (String "194" (String "160" " "))).

(** A create request refused because the name is taken. *)
Definition name_taken : Js.Error :=
  {| Js.message := "Request failed with status code 400";
     Js.response :=
       Some {| Js.data := Some {| Js.data_message := Some "User already exists" |} |} |}.

(** A batch in which the first three requests succeed. *)
Definition first_three (i : Promise) : Js.Settled User :=
  if (i <? 3)%nat then Js.fulfilled ann else Js.rejected name_taken.

(** A batch in which every name is taken. *)
Definition all_taken (i : Promise) : Js.Settled User := Js.rejected name_taken.

(** ** Proof automation *)


(** * Properties *)

(** ** Strings *)

Example includes_mid : Js.includes "Generated 3 new" "3" = true.
Proof. reflexivity. Qed.

Example includes_absent : Js.includes "Generated 3 new" "4" = false.
Proof. reflexivity. Qed.

Example trim_both : Js.trim "  Ann Lee " = "Ann Lee".
Proof. reflexivity. Qed.

Example trim_blank : Js.trim "   " = "".
Proof. reflexivity. Qed.

Example number_seven : Js.number_to_string seven = "7".
Proof. reflexivity. Qed.

Example digits_zero : Js.digits 0 = "0".
Proof. reflexivity. Qed.

Example digits_negative : Js.digits (-12) = "-12".
Proof. reflexivity. Qed.

Example number_exponent : Js.number_to_string (Js.OtherNumber "1e+21") = "1e+21".
Proof. reflexivity. Qed.

Example counter_ten : Js.counter_to_string 10 = "10".
Proof. reflexivity. Qed.

(** A no-break space, U+00A0, in its two bytes. *)
Example trim_no_break_space :
  Js.trim (String "194" (String "160" "Ann")) = "Ann" /\
  Js.trim (String "194" (String "160" "")) = "".
Proof. split; reflexivity. Qed.

(** The byte order mark U+FEFF and the ideographic space U+3000 at the end. *)
Example trim_three_bytes :
  Js.trim ("Bo" ++ String "239" (String "187" (String "191"
                   (String "227" (String "128" (String "128" ""))))))
  = "Bo".
Proof. reflexivity. Qed.

(** NEXT LINE, U+0085 (C2 85), is not white space for [trim]. *)
Example trim_keeps_next_line :
  Js.trim (String "194" (String "133" "")) = String "194" (String "133" "").
Proof. reflexivity. Qed.

Lemma prefix_app (sub rest : string) : prefix sub (sub ++ rest) = true.
Proof.
  induction sub as [|c sub IH]; simpl.
  - destruct rest; reflexivity.
  - destruct (ascii_dec c c) as [_|ne]; [exact IH | now elim ne].
Qed.

Lemma includes_prefix (s sub : string) :
  prefix sub s = true -> Js.includes s sub = true.
Proof. destruct s; simpl; intros H; rewrite H; reflexivity. Qed.

(** A text includes whatever was spliced into it. *)
Lemma includes_splice (before sub rest : string) :
  Js.includes (before ++ sub ++ rest) sub = true.
Proof.
  induction before as [|c before IH].
  - change ("" ++ sub ++ rest) with (sub ++ rest).
    apply includes_prefix, prefix_app.
  - change (String c before ++ sub ++ rest) with (String c (before ++ sub ++ rest)).
    cbn [Js.includes].
    destruct (prefix sub (String c (before ++ sub ++ rest))); [reflexivity | exact IH].
Qed.

Lemma truthy_false (s : string) : Js.truthy s = false <-> s = "".
Proof. destruct s; simpl; split; congruence. Qed.

Lemma truthy_true (s : string) : Js.truthy s = true <-> s <> "".
Proof. destruct s; simpl; split; congruence. Qed.

(** ** The selection after a fetch *)

Lemma not_found_false (prevId : string) (l : list User) :
  not_found prevId l = false <-> In prevId (map _id l).
Proof.
  unfold not_found. induction l as [|u l IH]; simpl.
  - split; [discriminate | tauto].
  - destruct (String.eqb_spec (_id u) prevId) as [e|ne].
    + split; auto.
    + rewrite IH. split; [auto | intros [e|i]; [contradiction | exact i]].
Qed.

Lemma not_found_true (prevId : string) (l : list User) :
  not_found prevId l = true <-> ~ In prevId (map _id l).
Proof.
  rewrite <- not_found_false. destruct (not_found prevId l); split; congruence.
Qed.

Lemma snap_to_first_invalid (l : list User) (first : User) (prevId : string) :
  prevId = "" \/ ~ In prevId (map _id l) ->
  snap_to_first l first prevId = _id first.
Proof.
  unfold snap_to_first. intros [e|n].
  - subst prevId. reflexivity.
  - apply not_found_true in n. rewrite n, orb_true_r. reflexivity.
Qed.

Lemma snap_to_first_valid (l : list User) (first : User) (prevId : string) :
  prevId <> "" -> In prevId (map _id l) ->
  snap_to_first l first prevId = prevId.
Proof.
  unfold snap_to_first. intros ne i.
  apply truthy_true in ne. apply not_found_false in i.
  rewrite ne, i. reflexivity.
Qed.

(** The selection a settled successful fetch leaves, whatever the state it
    finds when the answer arrives. *)
Lemma fetchUsers_settle_selection (st : AppState) (l : list User) :
  selectedUserId (state_after (fetchUsers_settle (Js.fulfilled l) st)) =
  match l with
  | [] => ""
  | first :: _ => snap_to_first l first (selectedUserId st)
  end.
Proof. destruct l; reflexivity. Qed.

Lemma fetchUsers_selection (st : AppState) (l : list User) :
  selectedUserId (state_after (fetchUsers (Js.fulfilled l) st)) =
  match l with
  | [] => ""
  | first :: _ => snap_to_first l first (selectedUserId st)
  end.
Proof. destruct l; reflexivity. Qed.

(** C2: after a successful list fetch, a non-empty list whose ids do not
    include the prior selection (or a prior selection that is absent) moves
    the selection to the id of the first fetched player, and an empty list
    makes the selection absent. *)
Theorem fetch_success_snaps_selection (st : AppState) (fetched : list User) :
  let st' := state_after (fetchUsers (Js.fulfilled fetched) st) in
  (forall first rest,
      fetched = first :: rest ->
      selectedUserId st = "" \/ ~ In (selectedUserId st) (map _id fetched) ->
      selectedUserId st' = _id first) /\
  (fetched = [] -> selectedUserId st' = "").
Proof.
  intros st'. unfold st'. rewrite fetchUsers_selection. split.
  - intros first rest e invalid. rewrite e. rewrite <- e.
    now apply snap_to_first_invalid.
  - intros e. rewrite e. reflexivity.
Qed.

Lemma fetch_success_snaps_selection_witness :
  selectedUserId (state_after (fetchUsers (Js.fulfilled [ann; bo]) initialState)) = "a" /\
  selectedUserId (state_after (fetchUsers (Js.fulfilled []) initialState)) = "".
Proof.
  split.
  - apply (proj1 (fetch_success_snaps_selection initialState [ann; bo]) ann [bo]).
    + reflexivity.
    + left. reflexivity.
  - apply (proj2 (fetch_success_snaps_selection initialState [])). reflexivity.
Defined.

(** C10: a successful fetch whose list still contains the selected player's
    id leaves the selection as it was. *)
Theorem fetch_success_keeps_valid_selection (st : AppState) (fetched : list User) :
  selectedUserId st <> "" ->
  In (selectedUserId st) (map _id fetched) ->
  selectedUserId (state_after (fetchUsers (Js.fulfilled fetched) st)) =
  selectedUserId st.
Proof.
  intros present listed. rewrite fetchUsers_selection.
  destruct fetched as [|first rest]; [contradiction|].
  now apply snap_to_first_valid.
Qed.

Lemma fetch_success_keeps_valid_selection_witness :
  let st := apply_update (SetSelectedUserId "b") initialState in
  selectedUserId st <> "" /\
  In (selectedUserId st) (map _id [ann; bo; cy]) /\
  selectedUserId (state_after (fetchUsers (Js.fulfilled [ann; bo; cy]) st)) = "b".
Proof.
  split; [discriminate|]. split; [right; left; reflexivity|].
  apply (fetch_success_keeps_valid_selection
           (apply_update (SetSelectedUserId "b") initialState) [ann; bo; cy]).
  - discriminate.
  - right. left. reflexivity.
Defined.

(** The scenario of the specification: the service delivers Ann and Bo. *)
Example fetch_ann_bo :
  let st' := state_after (fetchUsers (Js.fulfilled [ann; bo]) initialState) in
  users st' = [ann; bo] /\ selectedUserId st' = "a" /\
  error st' = None /\ isLoading st' = false.
Proof. repeat split. Qed.

(** ** A failed fetch *)

Lemma fetchUsers_settle_failure (st : AppState) (err : Js.Error) :
  let st' := state_after (fetchUsers_settle (Js.rejected err) st) in
  users st' = users st /\
  selectedUserId st' = selectedUserId st /\
  error st' =
    Some (if Js.message err =? "Network Error"
          then fetch_network_error_text
          else "An error occurred: " ++ Js.message err).
Proof.
  unfold fetchUsers_settle, finally, try_catch, state_after; simpl.
  destruct (Js.message err =? "Network Error"); simpl; auto.
Qed.


(** The claim of C5 fails on two counts.  The service answers 500 with the
    detail "Database unavailable": the error shown is built from the error
    object's own message and does not include the service's detail.  And the
    error shown is gone as soon as the next fetch is issued, before that
    fetch has an answer. *)
Lemma fetch_failure_hides_service_detail :
  let err :=
    {| Js.message := "Request failed with status code 500";
       Js.response :=
         Some {| Js.data :=
                   Some {| Js.data_message := Some "Database unavailable" |} |} |} in
  let st' := state_after (fetchUsers (Js.rejected err) initialState) in
  Js.response_data_message err = Some "Database unavailable" /\
  error st' = Some "An error occurred: Request failed with status code 500" /\
  Js.includes "An error occurred: Request failed with status code 500"
    "Database unavailable" = false /\
  error (state_after (fetchUsers_request st')) = None.
Proof. repeat split. Qed.

(** ** Choosing a player *)

(** C6 fails as stated: with Ann alone in the list and selected, the
    select's handler called with an id that is not in the list changes the
    selection to that id. *)
Lemma select_onChange_takes_unlisted_id :
  let st := apply_update (SetSelectedUserId "a")
              (apply_update (SetUsers [ann]) initialState) in
  ~ In "ghost" (map _id (users st)) /\
  selectedUserId st = "a" /\
  selectedUserId (state_after (select_onChange "ghost" st)) = "ghost".
Proof.
  simpl. repeat split. intros [e|[]]. discriminate.
Qed.

(** C6, amended: the handler sets the selection to the id it is given,
    without looking at the player list, and changes no other cell; the ids
    the select offers for choosing are those of the players of the current
    list. *)
Theorem select_onChange_sets_any_id (st : AppState) (id : string) :
  let st' := state_after (select_onChange id st) in
  selectedUserId st' = id /\
  users st' = users st /\
  message st' = message st /\
  error st' = error st /\
  trace (select_onChange id st) = [EvSet (SetSelectedUserId id)] /\
  (forall offered, In offered (select_options st) <->
                   exists u, In u (users st) /\ _id u = offered).
Proof.
  simpl. repeat split; auto.
  - unfold select_options. intros i. apply in_map_iff in i.
    destruct i as [u [e i]]. exists u. auto.
  - unfold select_options. intros [u [i e]]. apply in_map_iff. exists u. auto.
Qed.

(** ** Claiming points *)

(** C7: called while the selection is absent, [handleClaimPoints] sends no
    request and sets the message to the guidance text; this is all it does. *)
Theorem claim_without_selection (render st : AppState)
    (outcome : Js.Settled ClaimData) :
  selectedUserId render = "" ->
  let r := handleClaimPoints render outcome st in
  (forall req, ~ In (EvRequest req) (trace r)) /\
  count is_request (trace r) = 0%nat /\
  trace r = [EvSet (SetMessage "Please select a user first.")] /\
  message (state_after r) = "Please select a user first." /\
  completion r = Normal tt.
Proof.
  intros absent r. unfold r, handleClaimPoints. rewrite absent. simpl.
  repeat split. intros req [e|[]]. discriminate.
Qed.

Lemma claim_without_selection_witness :
  selectedUserId initialState = "" /\
  trace (handleClaimPoints initialState
           (Js.fulfilled {| updatedUser := Some ann; pointsClaimed := seven |})
           initialState)
  = [EvSet (SetMessage "Please select a user first.")].
Proof.
  split; [reflexivity|].
  apply (claim_without_selection initialState initialState
           (Js.fulfilled {| updatedUser := Some ann; pointsClaimed := seven |})).
  reflexivity.
Defined.

Lemma claim_text_includes_amount (amount : Js.Number) (who : string) :
  Js.includes (claim_text amount who) (Js.number_to_string amount) = true.
Proof.
  unfold claim_text.
  replace (claim_mark ++ " You claimed " ++ Js.number_to_string amount
           ++ " points for " ++ who ++ "!")
    with ((claim_mark ++ " You claimed ") ++ Js.number_to_string amount
          ++ (" points for " ++ who ++ "!")) by reflexivity.
  apply includes_splice.
Qed.

Lemma append_assoc (a b c : string) : (a ++ b) ++ c = a ++ b ++ c.
Proof. induction a as [|x a IH]; simpl; [reflexivity | now rewrite IH]. Qed.

Lemma claim_text_includes_name (amount : Js.Number) (who : string) :
  Js.includes (claim_text amount who) who = true.
Proof.
  unfold claim_text.
  replace (claim_mark ++ " You claimed " ++ Js.number_to_string amount
           ++ " points for " ++ who ++ "!")
    with ((claim_mark ++ " You claimed " ++ Js.number_to_string amount
           ++ " points for ") ++ who ++ "!").
  - apply includes_splice.
  - now rewrite !append_assoc.
Qed.

(** The digits printed for an integer read back as that integer. *)
Lemma digits_parse (z : Z) : Js.parse_integer (Js.digits z) = Some z.
Proof.
  unfold Js.parse_integer, Js.digits.
  rewrite NilZero.isi.
  - simpl. now rewrite DecimalZ.of_to.
  - destruct z as [|p|p]; simpl; try discriminate.
    intros e. injection e. apply DecimalPos.Unsigned.to_uint_nonnil.
  - destruct z as [|p|p]; simpl; try discriminate.
    intros e. injection e. apply DecimalPos.Unsigned.to_uint_nonnil.
Qed.

(** C8: with a selection present, a claim that succeeds with an updated user
    and an amount sets a message that includes the user's name and the
    amount (for an integer amount: digits that read back as that integer,
    between " You claimed " and " points for "), and then calls [fetchUsers];
    a claim that fails sets one of the two fixed failure texts, sends no
    second request and does not call [fetchUsers]. *)
Theorem claim_with_selection (render st : AppState) :
  selectedUserId render <> "" ->
  (forall (updated : User) (amount : Js.Number),
      let r := handleClaimPoints render
                 (Js.fulfilled {| updatedUser := Some updated;
                                  pointsClaimed := amount |}) st in
      message (state_after r) = claim_text amount (name updated) /\
      Js.includes (message (state_after r)) (name updated) = true /\
      Js.includes (message (state_after r)) (Js.number_to_string amount) = true /\
      (forall z safe,
          amount = Js.SafeInteger z safe ->
          exists printed,
            message (state_after r) =
              claim_mark ++ " You claimed " ++ printed
              ++ " points for " ++ name updated ++ "!" /\
            Js.parse_integer printed = Some z) /\
      (forall text,
          amount = Js.OtherNumber text ->
          message (state_after r) =
            claim_mark ++ " You claimed " ++ text
            ++ " points for " ++ name updated ++ "!") /\
      trace r =
        [EvRequest {| method := POST;
                      url := API_URL ++ "/users/" ++ selectedUserId render ++ "/claim";
                      body := None |};
         EvSet (SetMessage (claim_text amount (name updated)));
         EvFetchUsers;
         EvSet (SetIsLoading true);
         EvSet (SetError None);
         EvRequest {| method := GET; url := API_URL ++ "/users"; body := None |}] /\
      completion r = Normal tt) /\
  (forall err : Js.Error,
      let r := handleClaimPoints render (Js.rejected err) st in
      message (state_after r) =
        (if Js.message err =? "Network Error"
         then "Network Error: Check server connection."
         else "Failed to claim points.") /\
      count is_request (trace r) = 1%nat /\
      count is_fetchUsers (trace r) = 0%nat /\
      completion r = Normal tt).
Proof.
  intros present. apply truthy_true in present. split.
  - intros updated amount r. unfold r, handleClaimPoints. rewrite present.
    cbn [negb].
    assert (run :
      try_catch
        (axios_post (API_URL ++ "/users/" ++ selectedUserId render ++ "/claim") None ;;
         response_data <- await (Js.fulfilled {| updatedUser := Some updated;
                                                 pointsClaimed := amount |}) ;;
         updated_name <- updatedUser_name response_data ;;
         setMessage (claim_text (pointsClaimed response_data) updated_name) ;;
         fetchUsers_request)
        (fun err =>
           console_error "Error claiming points:" (LoggedError err) ;;
           setMessage (network_or err "Failed to claim points.")) st
      = (Normal tt,
         apply_update (SetError None)
           (apply_update (SetIsLoading true)
              (apply_update (SetMessage (claim_text amount (name updated))) st)),
         [EvRequest {| method := POST;
                       url := API_URL ++ "/users/" ++ selectedUserId render ++ "/claim";
                       body := None |};
          EvSet (SetMessage (claim_text amount (name updated)));
          EvFetchUsers;
          EvSet (SetIsLoading true);
          EvSet (SetError None);
          EvRequest {| method := GET; url := API_URL ++ "/users"; body := None |}]))
      by reflexivity.
    rewrite run. unfold state_after, trace, completion. cbn [fst snd].
    change (message (apply_update (SetError None)
             (apply_update (SetIsLoading true)
                (apply_update (SetMessage (claim_text amount (name updated))) st))))
      with (claim_text amount (name updated)).
    split; [reflexivity|].
    split; [apply claim_text_includes_name|].
    split; [apply claim_text_includes_amount|].
    split; [|split; [|split; reflexivity]].
    + intros z safe e. subst amount. exists (Js.digits z).
      split; [reflexivity | apply digits_parse].
    + intros text e. subst amount. reflexivity.
  - intros err r. unfold r, handleClaimPoints. rewrite present.
    unfold network_or, try_catch, state_after, trace, completion, count. simpl.
    destruct (Js.message err =? "Network Error"); repeat split.
Qed.

Lemma claim_with_selection_witness :
  selectedUserId (apply_update (SetSelectedUserId "a") initialState) <> "" /\
  Js.includes
    (message (state_after
       (handleClaimPoints (apply_update (SetSelectedUserId "a") initialState)
          (Js.fulfilled {| updatedUser := Some ann; pointsClaimed := seven |})
          (apply_update (SetSelectedUserId "a") initialState))))
    "Ann" = true.
Proof.
  split; [discriminate|].
  apply (proj1 (claim_with_selection
                  (apply_update (SetSelectedUserId "a") initialState)
                  (apply_update (SetSelectedUserId "a") initialState)
                  ltac:(discriminate)) ann seven).
Defined.

(** The scenario of the specification: Ann is selected and the service
    answers with her and 7 points. *)
Example claim_seven_for_ann :
  let st := apply_update (SetSelectedUserId "a") initialState in
  let shown := message (state_after
                 (handleClaimPoints st
                    (Js.fulfilled {| updatedUser := Some ann; pointsClaimed := seven |})
                    st)) in
  shown = claim_mark ++ " You claimed 7 points for Ann!" /\
  Js.includes shown "Ann" = true /\ Js.includes shown "7" = true.
Proof. repeat split. Qed.

(** ** The confirm handlers *)

(** C4 fails for the add-player dialog: with the dialog open and a name
    typed, a create request that is rejected leaves the dialog open. *)
Lemma add_user_failure_keeps_dialog_open :
  let st := apply_update (SetNewUserName "Ann")
              (apply_update (SetIsAddUserModalOpen true) initialState) in
  let err := {| Js.message := "Request failed with status code 400";
                Js.response :=
                  Some {| Js.data :=
                            Some {| Js.data_message := Some "User already exists" |} |} |} in
  let r := handleAddUser st (Js.rejected err) st in
  count is_request (trace r) = 1%nat /\
  isAddUserModalOpen (state_after r) = true /\
  message (state_after r) = "Error: User already exists".
Proof. repeat split. Qed.

(** C4, amended: the confirm handlers of reset-all-scores, delete-all-players
    and delete-one-player close their confirmation dialog on both outcomes of
    the request and set one message that tells the outcome (after a failed
    single delete the list of players to delete stays as it was).  The
    add-player handler sets one message on both outcomes too, closes its
    dialog when the request succeeds, and leaves the dialog and the typed
    name as they are when the request fails. *)
Theorem confirm_handlers_close_dialog (render st : AppState) :
  (forall outcome : Js.Settled unit,
      let r := handleClearAllScores outcome st in
      isClearScoresModalOpen (state_after r) = false /\
      count is_setMessage (trace r) = 1%nat /\
      message (state_after r) =
        match outcome with
        | Js.fulfilled _ => "All scores have been cleared successfully."
        | Js.rejected err => network_or err "Failed to clear scores."
        end) /\
  (forall outcome : Js.Settled unit,
      let r := handleClearAllUsers outcome st in
      isClearUsersModalOpen (state_after r) = false /\
      count is_setMessage (trace r) = 1%nat /\
      message (state_after r) =
        match outcome with
        | Js.fulfilled _ => "All users have been deleted."
        | Js.rejected err => network_or err "Failed to delete all users."
        end) /\
  (forall (target : User) (outcome : Js.Settled unit),
      userToDelete render = Some target ->
      let r := handleDeleteUser render outcome st in
      userToDelete (state_after r) = None /\
      count is_setMessage (trace r) = 1%nat /\
      match outcome with
      | Js.fulfilled _ =>
          isDeleteUserModalOpen (state_after r) = false /\
          message (state_after r) =
            "User " ++ quote ++ name target ++ quote ++ " was deleted."
      | Js.rejected err =>
          isDeleteUserModalOpen (state_after r) = isDeleteUserModalOpen st /\
          message (state_after r) = network_or err "Failed to delete user."
      end) /\
  (forall outcome : Js.Settled User,
      Js.trim (newUserName render) <> "" ->
      let r := handleAddUser render outcome st in
      count is_setMessage (trace r) = 1%nat /\
      match outcome with
      | Js.fulfilled created =>
          isAddUserModalOpen (state_after r) = false /\
          message (state_after r) =
            "User " ++ quote ++ name created ++ quote ++ " added successfully!"
      | Js.rejected err =>
          isAddUserModalOpen (state_after r) = isAddUserModalOpen st /\
          newUserName (state_after r) = newUserName st /\
          message (state_after r) =
            "Error: " ++ Js.or_else (Js.response_data_message err)
                           (network_or err "Failed to add user.")
      end).
Proof.
  split; [|split; [|split]].
  - intros outcome. destruct outcome; repeat split.
  - intros outcome. destruct outcome; repeat split.
  - intros target outcome chosen. unfold handleDeleteUser. rewrite chosen.
    destruct outcome; repeat split.
  - intros outcome typed. apply truthy_true in typed.
    unfold handleAddUser, bind, state_after, trace. simpl. rewrite typed.
    destruct outcome; repeat split.
Qed.

Lemma confirm_handlers_close_dialog_witness :
  let render := apply_update (SetUserToDelete (Some bo))
                  (apply_update (SetUsers [ann; bo]) initialState) in
  userToDelete render = Some bo /\
  userToDelete
    (state_after
       (handleDeleteUser render
          (Js.rejected {| Js.message := "Network Error"; Js.response := None |})
          render)) = None.
Proof.
  split; [reflexivity|].
  apply (proj1 (proj2 (proj2 (confirm_handlers_close_dialog
           (apply_update (SetUserToDelete (Some bo))
              (apply_update (SetUsers [ann; bo]) initialState))
           (apply_update (SetUserToDelete (Some bo))
              (apply_update (SetUsers [ann; bo]) initialState))))) bo
           (Js.rejected {| Js.message := "Network Error"; Js.response := None |})).
  reflexivity.
Defined.

(** ** The podium *)

Lemma Podium_cases (players : list User) :
  Podium players =
  match players with
  | [] => []
  | [first] => [first]
  | [first; second] => [second; first]
  | first :: second :: third :: _ => [second; first; third]
  end.
Proof. destruct players as [|a [|b [|c rest]]]; reflexivity. Qed.

Example podium_ann_bo : Podium [ann; bo] = [bo; ann].
Proof. reflexivity. Qed.

Example podium_four : Podium [ann; bo; cy; di] = [bo; ann; cy].
Proof. reflexivity. Qed.

(** C3 fails in its last part: for a list of one player the podium reads the
    array of the top players at the indices 1, 0 and 2, two of them past its
    length, and drops the [undefined] those reads give. *)
Lemma podium_reads_past_length :
  let topUsers := topThreeUsers (apply_update (SetUsers [ann]) initialState) in
  List.length topUsers = 1%nat /\
  podiumReads topUsers = [1; 0; 2]%nat /\
  podiumUsers topUsers = [ann] /\
  ~ (forall i, In i (podiumReads topUsers) -> (i < List.length topUsers)%nat).
Proof.
  repeat split. intros bound.
  specialize (bound 2%nat). simpl in bound. lia.
Qed.

(** C3, amended: the podium is a function of the player list alone; for n
    rank-ordered players it shows min(3, n) of them, ordered second, first,
    third, without the places the list does not have.  It reads the array of
    the top players at the indices 1, 0 and 2 whatever its length: a read
    past the length gives [undefined], which is dropped, and every player
    shown is the one the list holds at an index below its length. *)
Theorem podium_of_ranked_players (players : list User) :
  List.length (Podium players) = Nat.min 3 (List.length players) /\
  Podium players =
    match players with
    | [] => []
    | [first] => [first]
    | [first; second] => [second; first]
    | first :: second :: third :: _ => [second; first; third]
    end /\
  podiumReads (Js.slice0 3 players) = [1; 0; 2]%nat /\
  (forall i u, In (i, Some u) (podiumLookups (Js.slice0 3 players)) ->
               (i < List.length players)%nat /\ Js.index players i = Some u /\
               In u (Podium players)) /\
  (forall i, In (i, None) (podiumLookups (Js.slice0 3 players)) ->
             (List.length players <= i)%nat).
Proof.
  split; [|split; [apply Podium_cases | split; [reflexivity|]]].
  - destruct players as [|a [|b [|c rest]]]; reflexivity.
  - destruct players as [|a [|b [|c rest]]]; simpl; split; intros;
      repeat match goal with
        | H : _ \/ _ |- _ => destruct H
        | H : False |- _ => contradiction
        | H : (_, _) = (_, _) |- _ => inversion H; subst; clear H
        end;
      simpl; try lia; auto 6 with arith.
Qed.

(** ** Generating ten players *)

Lemma generate_loop_run (floor_random : nat -> nat) (remaining : nat) :
  forall (i : nat) (promises : list Promise) (st : AppState),
    generate_loop floor_random remaining i promises st =
    (Normal (promises ++ seq i remaining)%list, st,
     map (create_request floor_random) (seq i remaining)).
Proof.
  induction remaining as [|n IH]; intros i promises st.
  - simpl. unfold ret. now rewrite app_nil_r.
  - cbn [generate_loop]. unfold bind at 1. cbn [axios_post emit].
    rewrite IH. rewrite <- app_assoc. reflexivity.
Qed.

Lemma count_created_run (results : list (Js.Settled User)) :
  forall (createdCount : nat) (st : AppState),
    count_created results createdCount st =
    (Normal (createdCount + succeeded results)%nat, st, rejection_logs results).
Proof.
  induction results as [|[value|reason] rest IH]; intros createdCount st.
  - simpl. unfold ret, succeeded. simpl. now rewrite Nat.add_0_r.
  - cbn [count_created]. rewrite IH. unfold succeeded. simpl.
    now rewrite Nat.add_succ_r.
  - cbn [count_created]. unfold bind. cbn [console_error emit]. rewrite IH.
    reflexivity.
Qed.

Lemma handleGenerateTenUsers_run (floor_random : nat -> nat)
    (outcomes : Promise -> Js.Settled User) (st : AppState) :
  let results := allSettled outcomes (seq 0 10) in
  let r := handleGenerateTenUsers floor_random outcomes st in
  completion r = Normal tt /\
  trace r =
    (EvSet (SetIsLoading true)
       :: map (create_request floor_random) (seq 0 10)
       ++ rejection_logs results
       ++ aggregate_events (succeeded results)
       ++ [EvSet (SetIsLoading false)])%list /\
  message (state_after r) =
    (if (0 <? succeeded results)%nat
     then generated_text (succeeded results)
     else none_generated_text).
Proof.
  intros results r.
  assert (run : exists st',
             r = (Normal tt, st',
                  (EvSet (SetIsLoading true)
                     :: map (create_request floor_random) (seq 0 10)
                     ++ rejection_logs results
                     ++ aggregate_events (succeeded results)
                     ++ [EvSet (SetIsLoading false)])%list) /\
             message st' =
               (if (0 <? succeeded results)%nat
                then generated_text (succeeded results)
                else none_generated_text)).
  { unfold r, handleGenerateTenUsers.
    unfold bind at 1. cbn [setIsLoading set].
    unfold bind at 1. rewrite generate_loop_run.
    change ([] ++ seq 0 10)%list with (seq 0 10).
    unfold finally, try_catch. unfold bind at 1.
    rewrite count_created_run. fold results.
    change (0 + succeeded results)%nat with (succeeded results).
    unfold aggregate_events.
    destruct (0 <? succeeded results)%nat;
      unfold fetchUsers_request, setMessage, setError, setIsLoading, set,
        axios_get, emit, bind;
      cbv beta iota; rewrite <- !app_assoc;
      eexists; split; reflexivity. }
  destruct run as [st' [run shown]]. rewrite run.
  unfold completion, trace, state_after. cbn [fst snd]. auto.
Qed.

Lemma count_app (p : Event -> bool) (a b : list Event) :
  count p (a ++ b) = (count p a + count p b)%nat.
Proof. unfold count. now rewrite filter_app, length_app. Qed.

Lemma count_cons (p : Event -> bool) (ev : Event) (t : list Event) :
  count p (ev :: t) = ((if p ev then 1 else 0) + count p t)%nat.
Proof. unfold count. simpl. destruct (p ev); reflexivity. Qed.

Lemma count_none (p : Event -> bool) (t : list Event) :
  (forall ev, In ev t -> p ev = false) -> count p t = 0%nat.
Proof.
  induction t as [|ev t IH]; intros none; [reflexivity|].
  rewrite count_cons, (none ev (or_introl eq_refl)), IH; [reflexivity|].
  intros ev' i. apply none. now right.
Qed.



Lemma create_requests_are_requests (floor_random : nat -> nat) (l : list nat) :
  forall ev, In ev (map (create_request floor_random) l) ->
             is_request ev = true /\ is_setMessage ev = false /\
             is_fetchUsers ev = false /\ is_console_error ev = false.
Proof.
  intros ev i. apply in_map_iff in i. destruct i as [j [e _]].
  subst ev. repeat split.
Qed.

Lemma rejection_logs_are_logs (results : list (Js.Settled User)) :
  forall ev, In ev (rejection_logs results) ->
             is_console_error ev = true /\ is_setMessage ev = false /\
             is_fetchUsers ev = false /\ is_request ev = false.
Proof.
  induction results as [|[value|reason] rest IH]; simpl; intros ev i.
  - contradiction.
  - now apply IH.
  - destruct i as [e|i]; [subst ev; repeat split | now apply IH].
Qed.





Example generate_three_of_ten :
  let r := handleGenerateTenUsers (fun n => n) first_three initialState in
  message (state_after r) = "Generated 3 new random players!" /\
  count is_request (trace r) = 11%nat /\
  count is_console_error (trace r) = 7%nat /\
  count is_fetchUsers (trace r) = 1%nat /\
  isLoading (state_after r) = false.
Proof. repeat split. Qed.

Example generate_none_of_ten :
  let r := handleGenerateTenUsers (fun n => n) all_taken initialState in
  message (state_after r) = "Failed to generate new users. They might already exist." /\
  count is_request (trace r) = 10%nat /\
  count is_console_error (trace r) = 10%nat /\
  count is_fetchUsers (trace r) = 0%nat /\
  users (state_after r) = users initialState.
Proof. repeat split. Qed.

Example first_generated_name : random_name (fun n => n) 0 = "Swift Phoenix".
Proof. reflexivity. Qed.

(** An index past the arrays prints as [undefined]. *)
Example name_past_arrays : random_name (fun n => 12%nat) 0 = "undefined undefined".
Proof. reflexivity. Qed.

(** ** The message timer *)

Module TimerFacts.
Import MessageTimer.

Lemma single_timer_length (st : State) :
  single_timer st -> (List.length (live st) <= 1)%nat.
Proof.
  unfold single_timer. destruct (live st) as [|p [|q rest]]; simpl; intros; [lia | lia | contradiction].
Qed.

Lemma mounted_single (t : N) : single_timer (mounted t).
Proof. exact I. Qed.

(** A [setMessage] that changes the message. *)
Lemma setMessage_changes (st : State) (text : string) :
  single_timer st -> text <> message st ->
  let st' := setMessage text st in
  message st' = text /\
  clock st' = clock st /\
  live st' = (if Js.truthy text then [(next_id st, (clock st + 4000)%N)] else []) /\
  single_timer st' /\
  ops st' =
    (ops st
       ++ match cleanup st with Some old => [Cleared old] | None => [] end
       ++ (if Js.truthy text then [Started (next_id st) (clock st + 4000)%N] else []))%list.
Proof.
  intros single differs. unfold setMessage.
  apply String.eqb_neq in differs. rewrite differs.
  unfold single_timer in single.
  unfold run_effect, run_cleanup, with_message, single_timer. simpl.
  destruct (live st) as [|[id due] [|q rest]] eqn:L; try contradiction.
  - destruct (cleanup st) as [old|] eqn:C; simpl; rewrite ?L; simpl;
      destruct (Js.truthy text); simpl; rewrite ?app_nil_r, <- ?app_assoc; repeat split.
  - simpl in single. rewrite single. simpl.
    destruct (Js.truthy text); simpl; rewrite ?Nat.eqb_refl; simpl;
      rewrite ?app_nil_r, <- ?app_assoc; repeat split.
Qed.

(** A [setMessage] with the text already shown does nothing. *)
Lemma setMessage_same (st : State) : setMessage (message st) st = st.
Proof. unfold setMessage. now rewrite String.eqb_refl. Qed.

(** What the passing of time does to a state with at most one timer. *)
Lemma advance_to_cases (st : State) (t : N) :
  single_timer st ->
  let st' := advance_to t st in
  single_timer st' /\ ((clock st <= t)%N -> clock st' = t) /\
  match live st with
  | [(id, due)] =>
      if (due <=? t)%N
      then message st' = "" /\ live st' = []
      else same_but_clock st st'
  | _ => same_but_clock st st'
  end.
Proof.
  intros single. unfold single_timer in single.
  unfold advance_to, single_timer, same_but_clock.
  destruct (live st) as [|[id due] [|q rest]] eqn:L; try contradiction.
  - simpl. rewrite L. repeat split. lia.
  - simpl in single. cbn [List.length run_timers].
    unfold next_due. rewrite L. cbn [earliest snd].
    destruct (due <=? t)%N eqn:D.
    + apply N.leb_le in D.
      unfold fire, setMessage. cbn [message fst snd].
      destruct ("" =? message st) eqn:E.
      * cbn. rewrite L. cbn. rewrite Nat.eqb_refl. cbn. repeat split; try lia.
        now apply String.eqb_eq in E.
      * unfold run_cleanup, run_effect, with_message. cbn. rewrite single, L.
        cbn. rewrite Nat.eqb_refl. cbn. repeat split; lia.
    + apply N.leb_gt in D. cbn. rewrite L. repeat split; auto; lia.
Qed.

Lemma advance_to_single (st : State) (t : N) :
  single_timer st -> single_timer (advance_to t st).
Proof. intros single. now apply advance_to_cases. Qed.

Lemma setMessage_single (st : State) (text : string) :
  single_timer st -> single_timer (setMessage text st).
Proof.
  intros single. destruct (String.eqb_spec text (message st)) as [same|differs].
  - rewrite same, setMessage_same. exact single.
  - now apply setMessage_changes.
Qed.

Lemma setMessage_message (st : State) (text : string) :
  single_timer st -> message (setMessage text st) = text.
Proof.
  intros single. destruct (String.eqb_spec text (message st)) as [same|differs].
  - rewrite same, setMessage_same. reflexivity.
  - now apply setMessage_changes.
Qed.

Lemma setMessage_clock (st : State) (text : string) :
  single_timer st -> clock (setMessage text st) = clock st.
Proof.
  intros single. destruct (String.eqb_spec text (message st)) as [same|differs].
  - rewrite same, setMessage_same. reflexivity.
  - now apply setMessage_changes.
Qed.

Lemma step_single (st : State) (a : Action) :
  single_timer st -> single_timer (step st a).
Proof.
  intros single. destruct a as [t text|t|t texts]; simpl.
  - apply setMessage_single, advance_to_single, single.
  - apply advance_to_single, single.
  - unfold notify_several_at, setMessages.
    destruct (rev texts) as [|text earlier].
    + apply advance_to_single, single.
    + apply setMessage_single, advance_to_single, single.
Qed.

(** Whatever is set and whenever, at most one timer is pending. *)
Lemma run_single (actions : list Action) :
  forall st, single_timer st -> single_timer (run actions st).
Proof.
  unfold run. induction actions as [|a actions IH]; intros st single; simpl.
  - exact single.
  - apply IH, step_single, single.
Qed.

(** The message shown after time has passed is the one shown before, or
    none. *)
Lemma advance_to_message (st : State) (t : N) :
  single_timer st ->
  message (advance_to t st) = message st \/ message (advance_to t st) = "".
Proof.
  intros single. destruct (advance_to_cases st t single) as [_ [_ cases]].
  destruct (live st) as [|[id due] [|q rest]].
  - left. apply cases.
  - destruct (due <=? t)%N; [right | left]; apply cases.
  - left. apply cases.
Qed.

(** While its timer is not due, a message stays. *)
Lemma advance_to_before_due (st : State) (t : N) (id : nat) (due : N) :
  single_timer st -> live st = [(id, due)] -> (t < due)%N ->
  same_but_clock st (advance_to t st).
Proof.
  intros single pending early.
  destruct (advance_to_cases st t single) as [_ [_ cases]].
  rewrite pending in cases. apply N.leb_gt in early. rewrite early in cases.
  exact cases.
Qed.

(** Once the clock has reached [t], no pending timer is due: the fuel of
    [run_timers] is enough. *)
Lemma advance_to_settles (st : State) (t : N) :
  single_timer st ->
  forall p, In p (live (advance_to t st)) -> (t < snd p)%N.
Proof.
  intros single p pending.
  destruct (advance_to_cases st t single) as [_ [_ cases]].
  destruct (live st) as [|[id due] [|q rest]] eqn:L.
  - destruct cases as [_ [same _]]. rewrite same, L in pending. contradiction.
  - destruct (due <=? t)%N eqn:D.
    + destruct cases as [_ none]. rewrite none in pending. contradiction.
    + destruct cases as [_ [same _]]. rewrite same, L in pending.
      destruct pending as [e|[]]. subst p. now apply N.leb_gt in D.
  - unfold single_timer in single. rewrite L in single. contradiction.
Qed.

(** C9 fails when the second text is the text already shown: the same
    failure text is set at time 0 and again one second later; the effect
    does not run again, so the first timer is neither cleared nor replaced,
    and it removes the message at 4000 ms, three seconds after the second
    setting. *)
Lemma same_text_keeps_first_timer :
  let st1 := notify_at 0 "Failed to claim points." (mounted 0) in
  let st2 := notify_at 1000 "Failed to claim points." st1 in
  live st1 = [(0%nat, 4000%N)] /\
  live st2 = [(0%nat, 4000%N)] /\
  ops st2 = [Started 0 4000] /\
  message (advance_to 3999 st2) = "Failed to claim points." /\
  message (advance_to 4000 st2) = "".
Proof. repeat split. Qed.

(** C9, amended: at most one timer is pending at any time.  When a second
    notification with a different, non-empty text is set in a later tick,
    within four seconds of a first, the effect's cleanup clears the timer
    that is pending and then a new timer is started, due four seconds after
    the second setting; the second text stays shown until then, so it is what
    is shown when the first's four seconds end.  When the two are set in one
    tick, React renders once: no timer is ever started for the first text,
    and the one timer started is the second's. *)
Theorem second_notification_replaces_timer (st : State) (t1 t2 : N)
    (m1 m2 : string) :
  single_timer st ->
  (clock st <= t1)%N -> (t1 < t2)%N -> (t2 < t1 + 4000)%N ->
  m1 <> m2 -> m2 <> "" ->
  let st1 := notify_at t1 m1 st in
  let before := advance_to t2 st1 in
  let st2 := notify_at t2 m2 st1 in
  (List.length (live st1) <= 1)%nat /\
  (List.length (live before) <= 1)%nat /\
  (forall p, In p (live before) -> cleanup before = Some (fst p)) /\
  (m1 <> "" -> m1 <> message (advance_to t1 st) ->
   live before = [(next_id (advance_to t1 st), (t1 + 4000)%N)]) /\
  live st2 = [(next_id before, (t2 + 4000)%N)] /\
  ops st2 =
    (ops before
       ++ match cleanup before with Some old => [Cleared old] | None => [] end
       ++ [Started (next_id before) (t2 + 4000)%N])%list /\
  (forall t, (t2 <= t)%N -> (t < t2 + 4000)%N -> message (advance_to t st2) = m2) /\
  message (advance_to (t1 + 4000) st2) = m2 /\
  (m2 <> message (advance_to t1 st) ->
   let tick := advance_to t1 st in
   let both := notify_several_at t1 [m1; m2] st in
   live both = [(next_id tick, (t1 + 4000)%N)] /\
   ops both =
     (ops tick
        ++ match cleanup tick with Some old => [Cleared old] | None => [] end
        ++ [Started (next_id tick) (t1 + 4000)%N])%list /\
   (forall t, (t < t1 + 4000)%N -> message (advance_to t both) = m2)).
Proof.
  intros single early ordered within differs shown st1 before st2.
  pose proof (advance_to_cases st t1 single) as [single0 [clock0 _]].
  specialize (clock0 early).
  assert (single1 : single_timer st1) by (now apply setMessage_single).
  assert (clock1 : clock st1 = t1)
    by (unfold st1, notify_at; now rewrite setMessage_clock).
  assert (message1 : message st1 = m1) by (now apply setMessage_message).
  pose proof (advance_to_cases st1 t2 single1) as [singleB [clockB casesB]].
  fold before in singleB, clockB, casesB.
  assert (clock_before : clock before = t2) by (apply clockB; lia).
  assert (message_before : m2 <> message before).
  { destruct (advance_to_message st1 t2 single1) as [kept|gone];
      fold before in kept || fold before in gone; congruence. }
  pose proof (setMessage_changes before m2 singleB message_before)
    as [message2 [clock2 [live2 [single2 ops2]]]].
  change (setMessage m2 before) with st2 in message2, clock2, live2, single2, ops2.
  pose proof shown as truthy2. apply truthy_true in truthy2.
  rewrite truthy2 in live2, ops2.
  rewrite clock_before in live2, ops2.
  assert (stays : forall t, (t < t2 + 4000)%N -> message (advance_to t st2) = m2).
  { intros t not_due.
    destruct (advance_to_before_due st2 t _ _ single2 live2 not_due) as [same _].
    now rewrite same. }
  split; [now apply single_timer_length|].
  split; [now apply single_timer_length|].
  split.
  { intros p pending. unfold single_timer in singleB.
    destruct (live before) as [|q [|q' rest]]; try contradiction.
    destruct pending as [e|[]]. now subst p. }
  split.
  { intros nonempty changed.
    pose proof (setMessage_changes (advance_to t1 st) m1 single0 changed)
      as [_ [_ [live1 _]]].
    change (setMessage m1 (advance_to t1 st)) with st1 in live1.
    apply truthy_true in nonempty. rewrite nonempty, clock0 in live1.
    destruct (advance_to_before_due st1 t2 _ _ single1 live1 within)
      as [_ [same _]].
    fold before in same. now rewrite same. }
  split; [exact live2|]. split; [exact ops2|].
  split; [intros t _ not_due; now apply stays|].
  split; [apply stays; lia|].
  intros fresh tick both.
  pose proof (setMessage_changes tick m2 single0 fresh)
    as [_ [_ [liveT [singleT opsT]]]].
  change (setMessage m2 tick) with both in liveT, singleT, opsT.
  rewrite truthy2 in liveT, opsT. unfold tick in liveT, opsT at 2 4.
  rewrite clock0 in liveT, opsT.
  split; [exact liveT|]. split; [exact opsT|].
  intros t not_due.
  destruct (advance_to_before_due both t _ _ singleT liveT not_due) as [same _].
  rewrite same. now apply setMessage_message.
Qed.

Lemma second_notification_replaces_timer_witness :
  single_timer (mounted 0) /\
  (clock (mounted 0) <= 0)%N /\ (0 < 1000)%N /\ (1000 < 0 + 4000)%N /\
  "Failed to claim points." <> "All scores have been cleared successfully." /\
  "All scores have been cleared successfully." <> "" /\
  message
    (advance_to 4000
       (notify_at 1000 "All scores have been cleared successfully."
          (notify_at 0 "Failed to claim points." (mounted 0)))) =
  "All scores have been cleared successfully.".
Proof.
  split; [exact I|]. split; [discriminate|]. split; [reflexivity|].
  split; [reflexivity|]. split; [discriminate|]. split; [discriminate|].
  apply (second_notification_replaces_timer (mounted 0) 0 1000
           "Failed to claim points."
           "All scores have been cleared successfully.");
    try exact I; try discriminate; reflexivity.
Defined.

(** Two settings in one tick start one timer and clear none. *)
Example two_settings_one_tick :
  ops (notify_several_at 0 ["Failed to claim points.";
                            "All scores have been cleared successfully."]
         (mounted 0))
  = [Started 0 4000].
Proof. reflexivity. Qed.

End TimerFacts.

(** * Further properties of the component *)

(** ** The fetch and what it leaves *)

Lemma snap_to_first_of_first (l : list User) (first : User) :
  snap_to_first l first (_id first) = _id first.
Proof.
  unfold snap_to_first.
  destruct (negb (Js.truthy (_id first)) || not_found (_id first) l); reflexivity.
Qed.

Lemma snap_to_first_twice (l : list User) (first : User) (prevId : string) :
  snap_to_first l first (snap_to_first l first prevId)
  = snap_to_first l first prevId.
Proof.
  destruct (negb (Js.truthy prevId) || not_found prevId l) eqn:moved.
  - assert (e : snap_to_first l first prevId = _id first)
      by (unfold snap_to_first; now rewrite moved).
    rewrite e. apply snap_to_first_of_first.
  - assert (e : snap_to_first l first prevId = prevId)
      by (unfold snap_to_first; now rewrite moved).
    rewrite e. exact e.
Qed.

(** After a successful fetch the selection is never stale: it is absent when
    the fetched list is empty, and otherwise it is the id of one of the
    fetched players. *)
Theorem fetch_success_selection_listed (st : AppState) (fetched : list User) :
  let st' := state_after (fetchUsers (Js.fulfilled fetched) st) in
  (fetched = [] /\ selectedUserId st' = "") \/
  In (selectedUserId st') (map _id (users st')).
Proof.
  intros st'. unfold st'. destruct fetched as [|first rest].
  - left. split; reflexivity.
  - right. rewrite fetchUsers_selection.
    change (users (state_after (fetchUsers (Js.fulfilled (first :: rest)) st)))
      with (first :: rest).
    unfold snap_to_first.
    destruct (Js.truthy (selectedUserId st)); cbn [negb orb].
    + destruct (not_found (selectedUserId st) (first :: rest)) eqn:found.
      * now left.
      * now apply not_found_false.
    + now left.
Qed.

(** Fetching is idempotent: a second successful fetch that delivers the same
    list leaves every cell as the first one left it. *)
Theorem fetch_success_twice (st : AppState) (fetched : list User) :
  state_after (fetchUsers (Js.fulfilled fetched)
                 (state_after (fetchUsers (Js.fulfilled fetched) st)))
  = state_after (fetchUsers (Js.fulfilled fetched) st).
Proof.
  destruct fetched as [|first rest]; [reflexivity|].
  unfold fetchUsers, fetchUsers_request, fetchUsers_settle, finally, try_catch,
    bind, state_after, setSelectedUserIdWith; simpl.
  rewrite snap_to_first_twice. reflexivity.
Qed.

(** Whatever the GET ends in, [fetchUsers] sends that one request, completes
    normally, ends with the loading flag down, and touches neither the
    message, the typed name nor any dialog cell. *)
Theorem fetch_frame (st : AppState) (outcome : Js.Settled (list User)) :
  let r := fetchUsers outcome st in
  completion r = Normal tt /\
  count is_request (trace r) = 1%nat /\
  isLoading (state_after r) = false /\
  message (state_after r) = message st /\
  newUserName (state_after r) = newUserName st /\
  isClearScoresModalOpen (state_after r) = isClearScoresModalOpen st /\
  isClearUsersModalOpen (state_after r) = isClearUsersModalOpen st /\
  isAddUserModalOpen (state_after r) = isAddUserModalOpen st /\
  isDeleteUserModalOpen (state_after r) = isDeleteUserModalOpen st /\
  userToDelete (state_after r) = userToDelete st /\
  isActionsMenuOpen (state_after r) = isActionsMenuOpen st.
Proof.
  destruct outcome as [[|first rest]|err]; try (repeat split; fail).
  unfold fetchUsers, fetchUsers_request, fetchUsers_settle, finally, try_catch,
    bind, state_after, completion, trace, count; simpl.
  destruct (Js.message err =? "Network Error"); repeat split.
Qed.

(** What the user sees after a fetch.  After a success: no error banner, no
    loading line, and the board with the fetched players as rows in the order
    delivered and the podium of that list.  After a failure: the error
    banner, and no board at all, although the list is kept. *)
Theorem view_after_fetch (st : AppState) :
  (forall fetched : list User,
      let v := render (state_after (fetchUsers (Js.fulfilled fetched) st)) in
      view_error v = None /\ view_loading v = false /\
      view_board v =
        Some {| board_podium :=
                  match fetched with
                  | [] => None
                  | _ :: _ => Some (Podium fetched)
                  end;
                board_heading := negb (Nat.eqb (List.length fetched) 0);
                board_rows := fetched |}) /\
  (forall err : Js.Error,
      let st' := state_after (fetchUsers (Js.rejected err) st) in
      view_error (render st') = error st' /\
      error st' <> None /\
      view_loading (render st') = false /\
      view_board (render st') = None /\
      users st' = users st).
Proof.
  split.
  - intros fetched. destruct fetched as [|a [|b [|c rest]]]; repeat split.
  - intros err st'. unfold st'.
    unfold fetchUsers, fetchUsers_request, fetchUsers_settle, finally, try_catch,
      bind, state_after, render; simpl.
    destruct (Js.message err =? "Network Error"); simpl; repeat split; discriminate.
Qed.

(** Two fetches in flight, the first to answer failing and the second
    succeeding: the list becomes the second's, but the error of the first
    stays set (only the start of a fetch clears it), so the board is not
    rendered. *)
Theorem overlapping_fetch_error_outlives_success (st : AppState)
    (err : Js.Error) (fetched : list User) :
  let in_flight := state_after (fetchUsers_request (state_after (fetchUsers_request st))) in
  let failed := state_after (fetchUsers_settle (Js.rejected err) in_flight) in
  let st' := state_after (fetchUsers_settle (Js.fulfilled fetched) failed) in
  users st' = fetched /\
  error st' = error failed /\
  error st' <> None /\
  view_board (render st') = None /\
  isLoading st' = false.
Proof.
  unfold fetchUsers_request, fetchUsers_settle, finally, try_catch,
    bind, state_after, render; simpl.
  destruct (Js.message err =? "Network Error");
    destruct fetched as [|first rest]; simpl; repeat split; discriminate.
Qed.

(** ** Claiming through the button *)

(** The Claim button is enabled only with a selection, so a click on the
    enabled button never ends in the guidance text: it sends exactly one
    request, the POST to the claim address of the selected id, before anything
    else. *)
Theorem enabled_claim_sends_request (render_st st : AppState)
    (outcome : Js.Settled ClaimData) :
  view_claim_disabled (render render_st) = false ->
  let r := handleClaimPoints render_st outcome st in
  (exists rest,
      trace r =
        EvRequest {| method := POST;
                     url := API_URL ++ "/users/" ++ selectedUserId render_st ++ "/claim";
                     body := None |} :: rest /\
      forall claim, In (EvRequest claim) rest -> method claim = GET) /\
  message (state_after r) <> "Please select a user first.".
Proof.
  intros enabled r. unfold render in enabled. cbn [view_claim_disabled] in enabled.
  apply negb_false_iff in enabled.
  unfold r, handleClaimPoints. rewrite enabled. cbn [negb].
  destruct outcome as [[[updated|] amount]|err].
  - split.
    + eexists. split; [reflexivity|].
      intros claim listed. cbn in listed.
      repeat (destruct listed as [e|listed]; [try discriminate; now inversion e|]).
      contradiction.
    + unfold state_after, try_catch, bind; simpl. discriminate.
  - split.
    + eexists. split; [reflexivity|].
      intros claim listed. cbn in listed.
      repeat (destruct listed as [e|listed]; [try discriminate; now inversion e|]).
      contradiction.
    + unfold state_after, try_catch, bind; simpl. discriminate.
  - split.
    + eexists. split; [reflexivity|].
      intros claim listed. cbn in listed.
      repeat (destruct listed as [e|listed]; [try discriminate; now inversion e|]).
      contradiction.
    + unfold state_after, try_catch, bind, network_or; simpl.
      destruct (Js.message err =? "Network Error"); discriminate.
Qed.

Lemma enabled_claim_sends_request_witness :
  let st := apply_update (SetSelectedUserId "a") initialState in
  view_claim_disabled (render st) = false /\
  message (state_after
             (handleClaimPoints st (Js.rejected name_taken) st))
  <> "Please select a user first.".
Proof.
  split; [reflexivity|].
  apply (enabled_claim_sends_request
           (apply_update (SetSelectedUserId "a") initialState)
           (apply_update (SetSelectedUserId "a") initialState)
           (Js.rejected name_taken)).
  reflexivity.
Defined.

(** A claim the service fulfils with an answer that has no [updatedUser] is
    reported as a failure: reading the name throws inside the [try], the
    handler logs it, sets the generic failure text and does not refresh. *)
Theorem claim_answer_without_user (render_st st : AppState) (amount : Js.Number) :
  selectedUserId render_st <> "" ->
  let r := handleClaimPoints render_st
             (Js.fulfilled {| updatedUser := None; pointsClaimed := amount |}) st in
  completion r = Normal tt /\
  message (state_after r) = "Failed to claim points." /\
  count is_request (trace r) = 1%nat /\
  count is_console_error (trace r) = 1%nat /\
  count is_fetchUsers (trace r) = 0%nat /\
  users (state_after r) = users st.
Proof.
  intros present r. apply truthy_true in present.
  unfold r, handleClaimPoints. rewrite present. repeat split.
Qed.

Lemma claim_answer_without_user_witness :
  let st := apply_update (SetSelectedUserId "a") initialState in
  selectedUserId st <> "" /\
  message (state_after
             (handleClaimPoints st
                (Js.fulfilled {| updatedUser := None; pointsClaimed := seven |}) st))
  = "Failed to claim points.".
Proof.
  split; [discriminate|].
  apply (claim_answer_without_user
           (apply_update (SetSelectedUserId "a") initialState)
           (apply_update (SetSelectedUserId "a") initialState) seven).
  discriminate.
Defined.

(** ** The mutating handlers and the refresh *)

(** The cells the bulk handler leaves: the loading flag is down on every
    outcome (also when it has just started a refresh); the message is the
    aggregate text; the error is cleared exactly when a refresh was started;
    nothing else changes. *)
Lemma handleGenerateTenUsers_state (floor_random : nat -> nat)
    (outcomes : Promise -> Js.Settled User) (st : AppState) :
  let k := succeeded (allSettled outcomes (seq 0 10)) in
  state_after (handleGenerateTenUsers floor_random outcomes st) =
  if (0 <? k)%nat
  then apply_update (SetIsLoading false)
         (apply_update (SetError None)
            (apply_update (SetMessage (generated_text k)) st))
  else apply_update (SetIsLoading false)
         (apply_update (SetMessage none_generated_text) st).
Proof.
  intros k. unfold handleGenerateTenUsers, state_after.
  unfold bind at 1. cbn [setIsLoading set].
  unfold bind at 1. rewrite generate_loop_run.
  change ([] ++ seq 0 10)%list with (seq 0 10).
  unfold finally, try_catch. unfold bind at 1.
  rewrite count_created_run.
  change (0 + succeeded (allSettled outcomes (seq 0 10)))%nat with k.
  destruct (0 <? k)%nat; reflexivity.
Qed.

(** The [catch] of the bulk handler is never entered: whatever the ten
    requests end in, the handler sets no error text, ends with the loading
    flag down, and leaves the error as it was unless it started a refresh. *)
Theorem generate_never_sets_error (floor_random : nat -> nat)
    (outcomes : Promise -> Js.Settled User) (st : AppState) :
  let k := succeeded (allSettled outcomes (seq 0 10)) in
  let r := handleGenerateTenUsers floor_random outcomes st in
  (forall text, ~ In (EvSet (SetError (Some text))) (trace r)) /\
  isLoading (state_after r) = false /\
  error (state_after r) = (if (0 <? k)%nat then None else error st).
Proof.
  intros k r. split; [|split].
  - intros text listed.
    destruct (handleGenerateTenUsers_run floor_random outcomes st)
      as [_ [events _]].
    fold r in events. rewrite events in listed.
    destruct listed as [e|listed]; [discriminate|].
    apply in_app_or in listed. destruct listed as [listed|listed].
    { apply create_requests_are_requests in listed. now destruct listed. }
    apply in_app_or in listed. destruct listed as [listed|listed].
    { apply rejection_logs_are_logs in listed. now destruct listed. }
    apply in_app_or in listed. destruct listed as [listed|listed].
    + unfold aggregate_events in listed.
      destruct (0 <? succeeded (allSettled outcomes (seq 0 10)))%nat;
        cbn in listed;
        repeat (destruct listed as [e|listed]; [discriminate|]);
        contradiction.
    + destruct listed as [e|[]]. discriminate.
  - unfold r. rewrite handleGenerateTenUsers_state. fold k.
    destruct (0 <? k)%nat; reflexivity.
  - unfold r. rewrite handleGenerateTenUsers_state. fold k.
    destruct (0 <? k)%nat; reflexivity.
Qed.

(** The list and the selection are the same in both states. *)
Lemma generate_keeps_list (st : AppState) (floor_random : nat -> nat)
    (outcomes : Promise -> Js.Settled User) :
  let st' := state_after (handleGenerateTenUsers floor_random outcomes st) in
  users st' = users st /\ selectedUserId st' = selectedUserId st.
Proof.
  intros st'. unfold st'. rewrite handleGenerateTenUsers_state.
  destruct (0 <? succeeded (allSettled outcomes (seq 0 10)))%nat; split; reflexivity.
Qed.

Lemma add_keeps_list (closure st : AppState) (outcome : Js.Settled User) :
  let st' := state_after (handleAddUser closure outcome st) in
  users st' = users st /\ selectedUserId st' = selectedUserId st.
Proof.
  intros st'. unfold st', handleAddUser, bind at 1. cbn [emit].
  destruct (Js.truthy (Js.trim (newUserName closure)));
    destruct outcome; split; reflexivity.
Qed.

Lemma claim_keeps_list (closure st : AppState) (outcome : Js.Settled ClaimData) :
  let st' := state_after (handleClaimPoints closure outcome st) in
  users st' = users st /\ selectedUserId st' = selectedUserId st.
Proof.
  intros st'. unfold st', handleClaimPoints.
  destruct (Js.truthy (selectedUserId closure));
    destruct outcome as [[[updated|] amount]|err]; split; reflexivity.
Qed.

Lemma clear_scores_keeps_list (st : AppState) (outcome : Js.Settled unit) :
  let st' := state_after (handleClearAllScores outcome st) in
  users st' = users st /\ selectedUserId st' = selectedUserId st.
Proof. destruct outcome; split; reflexivity. Qed.

Lemma clear_users_keeps_list (st : AppState) (outcome : Js.Settled unit) :
  let st' := state_after (handleClearAllUsers outcome st) in
  users st' = users st /\ selectedUserId st' = selectedUserId st.
Proof. destruct outcome; split; reflexivity. Qed.

Lemma delete_keeps_list (closure st : AppState) (outcome : Js.Settled unit) :
  let st' := state_after (handleDeleteUser closure outcome st) in
  users st' = users st /\ selectedUserId st' = selectedUserId st.
Proof.
  intros st'. unfold st', handleDeleteUser.
  destruct (userToDelete closure); destruct outcome; split; reflexivity.
Qed.

(** No handler writes the player list or the selection: after each of the six
    mutating handlers, on every outcome and with any render as closure, both
    are what they were.  Only a fetch that settles changes the list. *)
Theorem handlers_leave_list_and_selection (render_st st : AppState) :
  (forall floor_random outcomes,
      let st' := state_after (handleGenerateTenUsers floor_random outcomes st) in
      users st' = users st /\ selectedUserId st' = selectedUserId st) /\
  (forall outcome,
      let st' := state_after (handleAddUser render_st outcome st) in
      users st' = users st /\ selectedUserId st' = selectedUserId st) /\
  (forall outcome,
      let st' := state_after (handleClaimPoints render_st outcome st) in
      users st' = users st /\ selectedUserId st' = selectedUserId st) /\
  (forall outcome,
      let st' := state_after (handleClearAllScores outcome st) in
      users st' = users st /\ selectedUserId st' = selectedUserId st) /\
  (forall outcome,
      let st' := state_after (handleClearAllUsers outcome st) in
      users st' = users st /\ selectedUserId st' = selectedUserId st) /\
  (forall outcome,
      let st' := state_after (handleDeleteUser render_st outcome st) in
      users st' = users st /\ selectedUserId st' = selectedUserId st).
Proof.
  split; [|split; [|split; [|split; [|split]]]].
  - intros floor_random outcomes. apply generate_keeps_list.
  - intros outcome. apply add_keeps_list.
  - intros outcome. apply claim_keeps_list.
  - intros outcome. apply clear_scores_keeps_list.
  - intros outcome. apply clear_users_keeps_list.
  - intros outcome. apply delete_keeps_list.
Qed.

(** What [trim_start] leaves is white space only exactly when the text was,
    and then nothing is left. *)
Lemma trim_start_all_space (n : nat) :
  forall s : string,
    (String.length s <= n)%nat ->
    (Js.all_space s = true -> Js.trim_start s = "") /\
    Js.all_space (Js.trim_start s) = Js.all_space s.
Proof.
  induction n as [|n IH]; intros s short.
  - destruct s; [split; reflexivity | simpl in short; lia].
  - destruct s as [|c1 rest1]; [split; reflexivity|].
    simpl in short. cbn [Js.trim_start Js.all_space].
    destruct (Js.is_space c1) eqn:one; [apply IH; lia|].
    destruct rest1 as [|c2 rest2].
    { cbn [Js.all_space]. rewrite one. split; [discriminate | reflexivity]. }
    simpl in short.
    destruct (Js.is_space2 c1 c2) eqn:two; [apply IH; lia|].
    destruct rest2 as [|c3 rest3].
    { cbn [Js.all_space]. rewrite one, two. split; [discriminate | reflexivity]. }
    simpl in short.
    destruct (Js.is_space3 c1 c2 c3) eqn:three.
    + cbn [andb]. apply IH. lia.
    + cbn [andb Js.all_space]. rewrite one, two, three.
      split; [discriminate | reflexivity].
Qed.

(** [!newUserName.trim()] holds exactly for the texts of white space only. *)
Lemma trim_truthy (s : string) : Js.truthy (Js.trim s) = negb (Js.all_space s).
Proof.
  destruct (trim_start_all_space (String.length s) s (le_n _)) as [blank same].
  unfold Js.trim. destruct (Js.all_space s) eqn:white.
  - now rewrite blank.
  - destruct (Js.trim_start s) as [|c rest]; [discriminate|].
    cbn [Js.trim_end]. rewrite same. reflexivity.
Qed.

(** Refresh follows success and only success: each of the four dialog
    handlers that sends its request calls [fetchUsers] once when the request
    is fulfilled and not at all when it is rejected, in which case it logs
    the error once; its own request is the first thing it sends. *)
Theorem refresh_only_after_success (render_st st : AppState) :
  (forall outcome : Js.Settled unit,
      let r := handleClearAllScores outcome st in
      count is_fetchUsers (trace r) = (if Js.is_fulfilled outcome then 1 else 0)%nat /\
      count is_console_error (trace r) = (if Js.is_fulfilled outcome then 0 else 1)%nat /\
      count is_request (trace r) = (if Js.is_fulfilled outcome then 2 else 1)%nat /\
      hd_error (trace r) =
        Some (EvRequest {| method := POST; url := API_URL ++ "/users/clear-scores";
                           body := None |})) /\
  (forall outcome : Js.Settled unit,
      let r := handleClearAllUsers outcome st in
      count is_fetchUsers (trace r) = (if Js.is_fulfilled outcome then 1 else 0)%nat /\
      count is_console_error (trace r) = (if Js.is_fulfilled outcome then 0 else 1)%nat /\
      count is_request (trace r) = (if Js.is_fulfilled outcome then 2 else 1)%nat /\
      hd_error (trace r) =
        Some (EvRequest {| method := DELETE; url := API_URL ++ "/users";
                           body := None |})) /\
  (forall (target : User) (outcome : Js.Settled unit),
      userToDelete render_st = Some target ->
      let r := handleDeleteUser render_st outcome st in
      count is_fetchUsers (trace r) = (if Js.is_fulfilled outcome then 1 else 0)%nat /\
      count is_console_error (trace r) = (if Js.is_fulfilled outcome then 0 else 1)%nat /\
      count is_request (trace r) = (if Js.is_fulfilled outcome then 2 else 1)%nat /\
      hd_error (trace r) =
        Some (EvRequest {| method := DELETE;
                           url := API_URL ++ "/users/" ++ _id target;
                           body := None |})) /\
  (forall outcome : Js.Settled User,
      Js.all_space (newUserName render_st) = false ->
      let r := handleAddUser render_st outcome st in
      count is_fetchUsers (trace r) = (if Js.is_fulfilled outcome then 1 else 0)%nat /\
      count is_console_error (trace r) = (if Js.is_fulfilled outcome then 0 else 1)%nat /\
      count is_request (trace r) = (if Js.is_fulfilled outcome then 2 else 1)%nat).
Proof.
  split; [|split; [|split]].
  - intros outcome. destruct outcome; repeat split.
  - intros outcome. destruct outcome; repeat split.
  - intros target outcome chosen. unfold handleDeleteUser. rewrite chosen.
    destruct outcome; repeat split.
  - intros outcome typed r. unfold r, handleAddUser, bind at 1. cbn [emit].
    rewrite trim_truthy, typed. destruct outcome; repeat split.
Qed.

Lemma refresh_only_after_success_witness :
  let render_st := apply_update (SetNewUserName " Ann ") initialState in
  Js.all_space (newUserName render_st) = false /\
  count is_fetchUsers
    (trace (handleAddUser render_st (Js.rejected name_taken) render_st)) = 0%nat.
Proof.
  split; [reflexivity|].
  apply (proj2 (proj2 (proj2 (refresh_only_after_success
           (apply_update (SetNewUserName " Ann ") initialState)
           (apply_update (SetNewUserName " Ann ") initialState))))
           (Js.rejected name_taken)).
  reflexivity.
Defined.

(** ** The name typed into the add-player form *)

(** A name of white space only (or no name) never reaches the service: the
    submit does nothing but prevent the form's default.  Any other name is
    sent in one POST whose body carries the name exactly as typed, its
    surrounding white space included, and no points. *)
Theorem add_user_blank_or_sent (render_st st : AppState)
    (outcome : Js.Settled User) :
  let r := handleAddUser render_st outcome st in
  (Js.all_space (newUserName render_st) = true ->
   trace r = [EvPreventDefault] /\ state_after r = st /\ completion r = Normal tt) /\
  (Js.all_space (newUserName render_st) = false ->
   exists rest,
     trace r =
       EvPreventDefault
         :: EvRequest {| method := POST; url := API_URL ++ "/users";
                         body := Some {| body_name := newUserName render_st;
                                         body_points := None |} |}
         :: rest).
Proof.
  intros r. split; intros typed; unfold r, handleAddUser, bind at 1; cbn [emit];
    rewrite trim_truthy, typed.
  - repeat split.
  - destruct outcome; eexists; reflexivity.
Qed.

Lemma add_user_blank_or_sent_witness :
  let render_st := apply_update (SetNewUserName no_break_spaces) initialState in
  Js.all_space (newUserName render_st) = true /\
  trace (handleAddUser render_st (Js.fulfilled ann) render_st) = [EvPreventDefault].
Proof.
  split; [reflexivity|].
  apply (proj1 (add_user_blank_or_sent
           (apply_update (SetNewUserName no_break_spaces) initialState)
           (apply_update (SetNewUserName no_break_spaces) initialState)
           (Js.fulfilled ann))).
  reflexivity.
Defined.

(** A name of no-break spaces is stopped like a name of spaces; a name with
    a letter between them is sent as typed. *)
Example add_user_no_break_space :
  let blank := apply_update (SetNewUserName no_break_spaces) initialState in
  let typed := apply_update (SetNewUserName (no_break_spaces ++ "Ann")) initialState in
  state_after (handleAddUser blank (Js.fulfilled ann) blank) = blank /\
  count is_request (trace (handleAddUser blank (Js.fulfilled ann) blank)) = 0%nat /\
  hd_error (tl (trace (handleAddUser typed (Js.rejected name_taken) typed))) =
    Some (EvRequest {| method := POST; url := API_URL ++ "/users";
                       body := Some {| body_name := no_break_spaces ++ "Ann";
                                       body_points := None |} |}).
Proof. repeat split. Qed.

(** What a rejected create tells the user: the service's own text when the
    answer carries a non-empty one; otherwise the connectivity text for a
    network error and the generic text for anything else.  The reason after
    "Error: " is never empty. *)
Theorem add_user_error_text (render_st st : AppState) (err : Js.Error) :
  Js.all_space (newUserName render_st) = false ->
  let shown := message (state_after (handleAddUser render_st (Js.rejected err) st)) in
  (forall detail, Js.response_data_message err = Some detail -> detail <> "" ->
                  shown = "Error: " ++ detail) /\
  (Js.response_data_message err = None \/ Js.response_data_message err = Some "" ->
   shown = "Error: " ++ (if Js.message err =? "Network Error"
                         then "Network Error: Check server connection."
                         else "Failed to add user.")) /\
  shown <> "Error: ".
Proof.
  intros typed shown.
  assert (e : shown = "Error: " ++ Js.or_else (Js.response_data_message err)
                                     (network_or err "Failed to add user.")).
  { unfold shown, handleAddUser, bind at 1. cbn [emit].
    rewrite trim_truthy, typed. reflexivity. }
  rewrite e. unfold Js.or_else, network_or. split; [|split].
  - intros detail given nonempty. rewrite given.
    apply truthy_true in nonempty. now rewrite nonempty.
  - intros [none|empty]; [rewrite none | rewrite empty]; reflexivity.
  - destruct (Js.response_data_message err) as [[|c detail]|]; simpl;
      try discriminate;
      destruct (Js.message err =? "Network Error"); discriminate.
Qed.

Lemma add_user_error_text_witness :
  let render_st := apply_update (SetNewUserName "Ann") initialState in
  Js.all_space (newUserName render_st) = false /\
  message (state_after (handleAddUser render_st (Js.rejected name_taken) render_st))
  = "Error: User already exists".
Proof.
  split; [reflexivity|].
  apply (proj1 (add_user_error_text
           (apply_update (SetNewUserName "Ann") initialState)
           (apply_update (SetNewUserName "Ann") initialState)
           name_taken eq_refl) "User already exists").
  - reflexivity.
  - discriminate.
Defined.

(** ** The generated names *)




(** ** The podium, once more *)

Lemma Podium_rearranges (players : list User) :
  Permutation (Podium players) (firstn 3 players).
Proof.
  destruct players as [|a [|b [|c rest]]]; simpl.
  - apply perm_nil.
  - apply Permutation_refl.
  - apply perm_swap.
  - change (Podium (a :: b :: c :: rest)) with [b; a; c]. apply perm_swap.
Qed.

(** The podium shows exactly the first three players of the list (all of
    them when there are fewer), each once: it is a rearrangement of them. *)
Theorem podium_permutes_top_three (players : list User) :
  Permutation (Podium players) (Js.slice0 3 players).
Proof. exact (Podium_rearranges players). Qed.

(** Players with distinct ids give podium steps with distinct React keys. *)
Theorem podium_keys_distinct (players : list User) :
  NoDup (map _id players) -> NoDup (map _id (Podium players)).
Proof.
  intros distinct.
  apply (Permutation_NoDup (l := map _id (firstn 3 players))).
  - apply Permutation_map, Permutation_sym, Podium_rearranges.
  - rewrite <- firstn_map.
    rewrite <- (firstn_skipn 3 (map _id players)) in distinct.
    now apply NoDup_app_remove_r in distinct.
Qed.

Lemma podium_keys_distinct_witness :
  NoDup (map _id [ann; bo; cy; di]) /\
  NoDup (map _id (Podium [ann; bo; cy; di])).
Proof.
  assert (distinct : NoDup (map _id [ann; bo; cy; di])).
  { repeat constructor; simpl; intuition discriminate. }
  split; [exact distinct|].
  apply (podium_keys_distinct [ann; bo; cy; di] distinct).
Defined.

(** ** What holds in every state the component reaches *)

Lemma fetchUsers_settle_listed (st : AppState) (outcome : Js.Settled (list User)) :
  selection_listed st ->
  selection_listed (state_after (fetchUsers_settle outcome st)).
Proof.
  intros listed. destruct outcome as [[|first rest]|err].
  - left. reflexivity.
  - right. rewrite fetchUsers_settle_selection.
    change (users (state_after (fetchUsers_settle (Js.fulfilled (first :: rest)) st)))
      with (first :: rest).
    unfold snap_to_first.
    destruct (Js.truthy (selectedUserId st)); cbn [negb orb].
    + destruct (not_found (selectedUserId st) (first :: rest)) eqn:found.
      * now left.
      * now apply not_found_false.
    + now left.
  - destruct (fetchUsers_settle_failure st err) as [same_users [same_selection _]].
    unfold selection_listed. now rewrite same_users, same_selection.
Qed.

Lemma inline_keeps (st : AppState) (u : Update) :
  is_inline u = true ->
  users (apply_update u st) = users st /\
  selectedUserId (apply_update u st) = selectedUserId st /\
  error (apply_update u st) = error st.
Proof. destruct u; simpl; intros; try discriminate; repeat split. Qed.

Lemma UiStep_listed (st st' : AppState) :
  UiStep st st' -> selection_listed st -> selection_listed st'.
Proof.
  intros step listed.
  destruct step as [st|st outcome|st floor_random outcomes|st closure outcome
                   |st closure outcome|st outcome|st outcome|st closure outcome
                   |st target_value offered|st u inline].
  - exact listed.
  - now apply fetchUsers_settle_listed.
  - destruct (generate_keeps_list st floor_random outcomes) as [same_users same_selection].
    unfold selection_listed. now rewrite same_users, same_selection.
  - destruct (add_keeps_list closure st outcome) as [same_users same_selection].
    unfold selection_listed. now rewrite same_users, same_selection.
  - destruct (claim_keeps_list closure st outcome) as [same_users same_selection].
    unfold selection_listed. now rewrite same_users, same_selection.
  - destruct (clear_scores_keeps_list st outcome) as [same_users same_selection].
    unfold selection_listed. now rewrite same_users, same_selection.
  - destruct (clear_users_keeps_list st outcome) as [same_users same_selection].
    unfold selection_listed. now rewrite same_users, same_selection.
  - destruct (delete_keeps_list closure st outcome) as [same_users same_selection].
    unfold selection_listed. now rewrite same_users, same_selection.
  - right. exact offered.
  - destruct (inline_keeps st u inline) as [same_users [same_selection _]].
    unfold selection_listed. now rewrite same_users, same_selection.
Qed.

Lemma Reachable_listed (st : AppState) : Reachable st -> selection_listed st.
Proof.
  induction 1 as [|st st' reached IH step].
  - left. reflexivity.
  - exact (UiStep_listed st st' step IH).
Qed.

(** In every state the component reaches, the selection is absent or the id
    of a player of the current list: the select never shows a stale id. *)
Theorem reachable_selection_listed (st : AppState) :
  Reachable st -> selection_listed st.
Proof. exact (Reachable_listed st). Qed.

Lemma reachable_selection_listed_witness :
  Reachable (state_after (fetchUsers_settle (Js.fulfilled [ann; bo]) initialState)) /\
  selection_listed (state_after (fetchUsers_settle (Js.fulfilled [ann; bo]) initialState)).
Proof.
  assert (reached : Reachable (state_after (fetchUsers_settle (Js.fulfilled [ann; bo])
                                              initialState))).
  { apply (reach_step initialState); [apply reach_initial | apply ui_fetch_settle]. }
  split; [exact reached|].
  apply (reachable_selection_listed _ reached).
Defined.

Lemma UiStep_error (st st' : AppState) :
  UiStep st st' -> error_from_fetch st -> error_from_fetch st'.
Proof.
  intros step known.
  destruct step as [st|st outcome|st floor_random outcomes|st closure outcome
                   |st closure outcome|st outcome|st outcome|st closure outcome
                   |st target_value offered|st u inline].
  - left. reflexivity.
  - destruct outcome as [[|first rest]|err]; try exact known.
    destruct (fetchUsers_settle_failure st err) as [_ [_ set]].
    unfold error_from_fetch. rewrite set.
    destruct (Js.message err =? "Network Error"); right; [now left | right].
    now exists (Js.message err).
  - unfold error_from_fetch. rewrite handleGenerateTenUsers_state.
    destruct (0 <? succeeded (allSettled outcomes (seq 0 10)))%nat;
      [now left | exact known].
  - unfold handleAddUser, bind at 1. cbn [emit].
    destruct (Js.truthy (Js.trim (newUserName closure)));
      destruct outcome; try exact known. now left.
  - unfold handleClaimPoints.
    destruct (Js.truthy (selectedUserId closure));
      destruct outcome as [[[updated|] amount]|err]; try exact known. now left.
  - destruct outcome; [now left | exact known].
  - destruct outcome; [now left | exact known].
  - unfold handleDeleteUser.
    destruct (userToDelete closure); destruct outcome; try exact known. now left.
  - exact known.
  - destruct (inline_keeps st u inline) as [_ [_ same]].
    unfold error_from_fetch. now rewrite same.
Qed.

(** In every state the component reaches, the error that hides the board is
    absent or one of the two texts of a failed fetch: no other handler ever
    sets it. *)
Theorem reachable_error_from_fetch (st : AppState) :
  Reachable st -> error_from_fetch st.
Proof.
  induction 1 as [|st st' reached IH step].
  - left. reflexivity.
  - exact (UiStep_error st st' step IH).
Qed.

Lemma reachable_error_from_fetch_witness :
  Reachable (state_after (fetchUsers_settle (Js.rejected name_taken) initialState)) /\
  error_from_fetch (state_after (fetchUsers_settle (Js.rejected name_taken) initialState)).
Proof.
  assert (reached : Reachable (state_after (fetchUsers_settle (Js.rejected name_taken)
                                              initialState))).
  { apply (reach_step initialState); [apply reach_initial | apply ui_fetch_settle]. }
  split; [exact reached|].
  apply (reachable_error_from_fetch _ reached).
Defined.

(** Through the enabled Claim button the claim request always names a player
    of the current list: in a reachable state with the button enabled, the
    handler's first event is the POST to the claim address of a listed
    player's id. *)
Theorem reachable_claim_targets_listed (st : AppState)
    (outcome : Js.Settled ClaimData) :
  Reachable st ->
  view_claim_disabled (render st) = false ->
  exists player,
    In player (users st) /\
    hd_error (trace (handleClaimPoints st outcome st)) =
      Some (EvRequest {| method := POST;
                         url := API_URL ++ "/users/" ++ _id player ++ "/claim";
                         body := None |}).
Proof.
  intros reached enabled.
  unfold render in enabled. cbn [view_claim_disabled] in enabled.
  apply negb_false_iff in enabled.
  destruct (Reachable_listed st reached) as [absent|listed].
  - rewrite absent in enabled. discriminate.
  - apply in_map_iff in listed. destruct listed as [player [same member]].
    exists player. split; [exact member|].
    unfold handleClaimPoints. rewrite enabled, same.
    destruct outcome as [[[updated|] amount]|err]; reflexivity.
Qed.

Lemma reachable_claim_targets_listed_witness :
  let st := state_after (fetchUsers_settle (Js.fulfilled [ann; bo]) initialState) in
  Reachable st /\ view_claim_disabled (render st) = false /\
  exists player,
    In player (users st) /\
    hd_error (trace (handleClaimPoints st (Js.rejected name_taken) st)) =
      Some (EvRequest {| method := POST;
                         url := API_URL ++ "/users/" ++ _id player ++ "/claim";
                         body := None |}).
Proof.
  assert (reached : Reachable (state_after (fetchUsers_settle (Js.fulfilled [ann; bo])
                                              initialState))).
  { apply (reach_step initialState); [apply reach_initial | apply ui_fetch_settle]. }
  split; [exact reached|]. split; [reflexivity|].
  apply (reachable_claim_targets_listed _ (Js.rejected name_taken) reached).
  reflexivity.
Defined.

(** ** The controls after a fetch *)

(** After a successful fetch of players whose ids are not empty, the select
    and the Claim button are disabled exactly when the list is empty; the
    select offers the fetched players in order, and its value is one of the
    offered ids whenever there is a player. *)
Theorem controls_after_fetch (st : AppState) (fetched : list User) :
  (forall player, In player fetched -> _id player <> "") ->
  let v := render (state_after (fetchUsers (Js.fulfilled fetched) st)) in
  view_select_disabled v = Nat.eqb (List.length fetched) 0 /\
  view_claim_disabled v = Nat.eqb (List.length fetched) 0 /\
  view_select_options v = map (fun player => (_id player, name player)) fetched /\
  (fetched <> [] -> In (view_select_value v) (map fst (view_select_options v))).
Proof.
  intros ids v.
  assert (shown : view_select_value v =
                  selectedUserId (state_after (fetchUsers (Js.fulfilled fetched) st)))
    by reflexivity.
  assert (offered : view_select_options v =
                    map (fun player => (_id player, name player)) fetched)
    by (destruct fetched; reflexivity).
  assert (disabled : view_claim_disabled v = negb (Js.truthy (view_select_value v)))
    by reflexivity.
  rewrite fetchUsers_selection in shown.
  destruct fetched as [|first rest].
  - repeat split. intros nonempty. now elim nonempty.
  - assert (listed : In (view_select_value v) (map _id (first :: rest))).
    { rewrite shown. unfold snap_to_first.
      destruct (Js.truthy (selectedUserId st)); cbn [negb orb].
      - destruct (not_found (selectedUserId st) (first :: rest)) eqn:found.
        + now left.
        + now apply not_found_false.
      - now left. }
    split; [reflexivity|]. split; [|split; [exact offered|]].
    + rewrite disabled.
      apply in_map_iff in listed. destruct listed as [player [same member]].
      apply ids in member. rewrite <- same.
      apply truthy_true in member. now rewrite member.
    + intros _. rewrite offered, map_map. exact listed.
Qed.

Lemma controls_after_fetch_witness :
  (forall player, In player [ann; bo] -> _id player <> "") /\
  view_claim_disabled
    (render (state_after (fetchUsers (Js.fulfilled [ann; bo]) initialState))) = false.
Proof.
  assert (ids : forall player, In player [ann; bo] -> _id player <> "").
  { intros player [e|[e|[]]]; subst player; discriminate. }
  split; [exact ids|].
  apply (controls_after_fetch initialState [ann; bo] ids).
Defined.

(** ** The error of a failed fetch *)

Lemma generate_fetch_count (floor_random : nat -> nat)
    (outcomes : Promise -> Js.Settled User) (st : AppState) :
  count is_fetchUsers (trace (handleGenerateTenUsers floor_random outcomes st)) =
  (if (0 <? succeeded (allSettled outcomes (seq 0 10)))%nat then 1 else 0)%nat.
Proof.
  destruct (handleGenerateTenUsers_run floor_random outcomes st)
    as [_ [events _]].
  rewrite events, count_cons, !count_app.
  rewrite (count_none is_fetchUsers (map _ _))
    by (intros ev i; now apply (create_requests_are_requests floor_random (seq 0 10))).
  rewrite (count_none is_fetchUsers (rejection_logs _))
    by (intros ev i; now apply (rejection_logs_are_logs (allSettled outcomes (seq 0 10)))).
  unfold aggregate_events.
  destruct (0 <? succeeded (allSettled outcomes (seq 0 10)))%nat; reflexivity.
Qed.

(** A happening that starts no fetch and is not the failing answer of one
    leaves the error as it is. *)
Lemma without_fetch_keeps_error (h : Happening) (st : AppState) :
  without_fetch h st = true ->
  error (state_after (happen h st)) = error st.
Proof.
  destruct h as [|outcome|floor_random outcomes|closure outcome|closure outcome
                |outcome|outcome|closure outcome|target_value|u];
    cbn [without_fetch happen].
  - discriminate.
  - destruct outcome as [[|first rest]|err]; [reflexivity | reflexivity | discriminate].
  - rewrite generate_fetch_count, handleGenerateTenUsers_state.
    destruct (0 <? succeeded (allSettled outcomes (seq 0 10)))%nat;
      [discriminate | reflexivity].
  - unfold handleAddUser, bind at 1 2. cbn [emit].
    destruct (Js.truthy (Js.trim (newUserName closure)));
      destruct outcome; try reflexivity. discriminate.
  - unfold handleClaimPoints.
    destruct (Js.truthy (selectedUserId closure));
      destruct outcome as [[[updated|] amount]|err]; try reflexivity. discriminate.
  - destruct outcome; [discriminate | reflexivity].
  - destruct outcome; [discriminate | reflexivity].
  - unfold handleDeleteUser.
    destruct (userToDelete closure); destruct outcome; try reflexivity. discriminate.
  - reflexivity.
  - intros inline. now apply inline_keeps.
Qed.

Lemma course_without_fetch_keeps_error (course : list Happening) :
  forall st, course_without_fetch course st = true ->
             error (happen_all course st) = error st.
Proof.
  unfold happen_all.
  induction course as [|h rest IH]; intros st calm; [reflexivity|].
  cbn [course_without_fetch] in calm. apply andb_true_iff in calm.
  destruct calm as [first later]. cbn [fold_left].
  rewrite (IH _ later). now apply without_fetch_keeps_error.
Qed.

(** C5, amended: a failed fetch leaves the player list as it was and sets the
    error to the connectivity text when the error object's message is
    "Network Error", and otherwise to "An error occurred: " followed by the
    error object's own message; the two texts always differ.  The error then
    stays as set through every course of handler runs, selections and inline
    updates in which no fetch is started and no other fetch fails.  The start
    of a fetch clears it at once, in any state; the answer of a fetch that
    succeeds does not touch it, so a fetch started after the failure that
    succeeds ends with no error. *)
Theorem fetch_failure_keeps_list_sets_error (st : AppState) (err : Js.Error) :
  let st' := state_after (fetchUsers (Js.rejected err) st) in
  users st' = users st /\
  error st' =
    Some (if Js.message err =? "Network Error"
          then fetch_network_error_text
          else "An error occurred: " ++ Js.message err) /\
  (forall other : Js.Error,
      "An error occurred: " ++ Js.message other <> fetch_network_error_text) /\
  (forall course : list Happening,
      course_without_fetch course st' = true ->
      error (happen_all course st') = error st') /\
  (forall later : AppState, error (state_after (fetchUsers_request later)) = None) /\
  (forall (fetched : list User) (later : AppState),
      error (state_after (fetchUsers_settle (Js.fulfilled fetched) later)) = error later) /\
  error (state_after (fetchUsers_request st')) = None /\
  (forall fetched : list User,
      error (state_after (fetchUsers (Js.fulfilled fetched) st')) = None).
Proof.
  intros st'.
  split; [|split; [|split; [|split; [|split; [|split; [|split]]]]]].
  - unfold st', fetchUsers, fetchUsers_request, fetchUsers_settle, finally,
      try_catch, state_after; simpl.
    destruct (Js.message err =? "Network Error"); reflexivity.
  - unfold st', fetchUsers, fetchUsers_request, fetchUsers_settle, finally,
      try_catch, state_after; simpl.
    destruct (Js.message err =? "Network Error"); reflexivity.
  - intros other. discriminate.
  - intros course calm. now apply course_without_fetch_keeps_error.
  - reflexivity.
  - intros fetched later. destruct fetched; reflexivity.
  - reflexivity.
  - intros fetched. destruct fetched; reflexivity.
Qed.

(** The error of a failed first fetch outlasts a failed claim, the opening
    and closing of a dialog, a pick in the select and a blank submit. *)
Lemma fetch_failure_keeps_list_sets_error_witness :
  let failed := state_after (fetchUsers (Js.rejected name_taken) initialState) in
  let course :=
    [Claims failed (Js.rejected name_taken);
     Sets (SetIsAddUserModalOpen true);
     Adds failed (Js.fulfilled ann);
     Sets (SetIsAddUserModalOpen false);
     Selects "a";
     FetchAnswers (Js.fulfilled [ann; bo])] in
  course_without_fetch course failed = true /\
  error (happen_all course failed) = error failed.
Proof.
  split; [reflexivity|].
  apply (fetch_failure_keeps_list_sets_error initialState name_taken).
  reflexivity.
Defined.

(** ** The life of a notification *)

Module TimerLife.
Import MessageTimer.
Import TimerFacts.

Lemma advance_to_clock (st : State) (t : N) :
  single_timer st -> clock (advance_to t st) = N.max (clock st) t.
Proof.
  intros single. unfold single_timer in single. unfold advance_to.
  destruct (live st) as [|[id due] [|q rest]] eqn:L; try contradiction.
  - reflexivity.
  - cbn [List.length run_timers clock]. unfold next_due. rewrite L.
    cbn [earliest snd].
    destruct (due <=? t)%N eqn:D; [|reflexivity].
    apply N.leb_le in D. unfold fire, setMessage. cbn [message fst snd].
    destruct ("" =? message st).
    + cbn. lia.
    + unfold run_cleanup, run_effect, with_message. cbn.
      destruct (cleanup st); cbn; lia.
Qed.

Lemma healthy_single (st : State) : healthy st -> single_timer st.
Proof.
  unfold healthy, single_timer.
  destruct (live st) as [|p [|q rest]]; intuition.
Qed.

Lemma mounted_healthy (t : N) : healthy (mounted t).
Proof. reflexivity. Qed.

Lemma setMessage_healthy (st : State) (text : string) :
  healthy st -> healthy (setMessage text st).
Proof.
  intros well. destruct (String.eqb_spec text (message st)) as [same|differs].
  - rewrite same, setMessage_same. exact well.
  - pose proof (setMessage_changes st text (healthy_single st well) differs)
      as [shown [time [pending [single _]]]].
    unfold healthy. unfold single_timer in single. rewrite pending in *.
    destruct (Js.truthy text) eqn:T.
    + cbn [fst snd] in *. rewrite shown, time.
      repeat split; [now apply truthy_true | exact single | lia].
    + rewrite shown. now apply truthy_false.
Qed.

Lemma advance_to_healthy (st : State) (t : N) :
  healthy st -> healthy (advance_to t st).
Proof.
  intros well. pose proof (healthy_single st well) as single.
  pose proof (advance_to_cases st t single) as [_ [_ cases]].
  pose proof (advance_to_clock st t single) as time.
  unfold healthy in *.
  destruct (live st) as [|[id due] [|q rest]] eqn:L; try contradiction.
  - destruct cases as [shown [pending _]]. rewrite pending, L, shown. exact well.
  - destruct (due <=? t)%N.
    + destruct cases as [shown pending]. now rewrite pending.
    + destruct cases as [shown [pending [clean _]]].
      rewrite pending, L, shown, clean, time.
      destruct well as [nonempty [cleared due_soon]].
      cbn [fst snd] in *. repeat split; auto. lia.
Qed.

Lemma run_healthy (actions : list Action) :
  forall st, healthy st -> healthy (run actions st).
Proof.
  unfold run. induction actions as [|a actions IH]; intros st well; simpl.
  - exact well.
  - apply IH. destruct a as [t text|t|t texts]; simpl.
    + apply setMessage_healthy, advance_to_healthy, well.
    + apply advance_to_healthy, well.
    + unfold notify_several_at, setMessages.
      destruct (rev texts) as [|text earlier].
      * apply advance_to_healthy, well.
      * apply setMessage_healthy, advance_to_healthy, well.
Qed.

(** Whatever is notified and whenever, from mounting on: at most one timer
    is pending; a timer is pending exactly while a message is shown; and once
    four seconds pass with nothing set, the message is gone and no timer is
    left. *)
Theorem notifications_always_expire (actions : list Action) (t0 : N) :
  let st := run actions (mounted t0) in
  (List.length (live st) <= 1)%nat /\
  (message st = "" <-> live st = []) /\
  message (advance_to (clock st + 4000) st) = "" /\
  live (advance_to (clock st + 4000) st) = [].
Proof.
  intros st.
  assert (well : healthy st) by (apply run_healthy, mounted_healthy).
  pose proof (healthy_single st well) as single.
  pose proof (advance_to_cases st (clock st + 4000) single) as [_ [_ cases]].
  unfold healthy in well.
  destruct (live st) as [|[id due] [|q rest]] eqn:L; try contradiction.
  - destruct cases as [shown [pending _]]. rewrite shown, pending, L.
    repeat split; auto.
  - destruct well as [nonempty [_ due_soon]]. cbn [snd] in due_soon.
    apply N.leb_le in due_soon. rewrite due_soon in cases.
    destruct cases as [shown pending]. rewrite shown, pending.
    repeat split; simpl; auto; try lia.
    + intros empty. contradiction.
    + discriminate.
Qed.

(** A new non-empty text set at time t is shown at every moment before
    t + 4000 and is gone, with no timer left, from t + 4000 on, when nothing
    else is set meanwhile. *)
Theorem notification_shown_four_seconds (st : State) (t : N) (text : string) :
  single_timer st -> (clock st <= t)%N ->
  text <> "" -> text <> message (advance_to t st) ->
  let st1 := notify_at t text st in
  (forall t', (t' < t + 4000)%N -> message (advance_to t' st1) = text) /\
  (forall t', (t + 4000 <= t')%N ->
              message (advance_to t' st1) = "" /\ live (advance_to t' st1) = []).
Proof.
  intros single early nonempty fresh st1.
  pose proof (advance_to_cases st t single) as [single0 [clock0 _]].
  specialize (clock0 early).
  pose proof (setMessage_changes (advance_to t st) text single0 fresh)
    as [shown [time [pending [single1 _]]]].
  change (setMessage text (advance_to t st)) with st1 in shown, time, pending, single1.
  apply truthy_true in nonempty. rewrite nonempty, clock0 in pending.
  split.
  - intros t' not_due.
    destruct (advance_to_before_due st1 t' _ _ single1 pending not_due) as [same _].
    now rewrite same.
  - intros t' due.
    pose proof (advance_to_cases st1 t' single1) as [_ [_ cases]].
    rewrite pending in cases. apply N.leb_le in due. rewrite due in cases.
    exact cases.
Qed.

Lemma notification_shown_four_seconds_witness :
  single_timer (mounted 0) /\ (clock (mounted 0) <= 500)%N /\
  message (advance_to 4499 (notify_at 500 "All users have been deleted." (mounted 0)))
  = "All users have been deleted.".
Proof.
  split; [exact I|]. split; [discriminate|].
  apply (notification_shown_four_seconds (mounted 0) 500
           "All users have been deleted.");
    try exact I; try discriminate; reflexivity.
Defined.

(** Setting again the text that is on screen does not prolong it: the
    timer of the first setting stays the only one, nothing is cleared or
    started, and the message goes when the first four seconds end. *)
Theorem repeated_text_is_not_prolonged (st : State) (t1 t2 : N) (text : string) :
  single_timer st -> (clock st <= t1)%N ->
  (t1 <= t2)%N -> (t2 < t1 + 4000)%N ->
  text <> "" -> text <> message (advance_to t1 st) ->
  let st1 := notify_at t1 text st in
  let st2 := notify_at t2 text st1 in
  live st2 = live st1 /\
  ops st2 = ops st1 /\
  (exists id, live st2 = [(id, (t1 + 4000)%N)]) /\
  message (advance_to (t1 + 4000) st2) = "".
Proof.
  intros single early ordered within nonempty fresh st1 st2.
  pose proof (advance_to_cases st t1 single) as [single0 [clock0 _]].
  specialize (clock0 early).
  pose proof (setMessage_changes (advance_to t1 st) text single0 fresh)
    as [shown [time [pending [single1 _]]]].
  change (setMessage text (advance_to t1 st)) with st1 in shown, time, pending, single1.
  apply truthy_true in nonempty. rewrite nonempty, clock0 in pending.
  destruct (advance_to_before_due st1 t2 _ _ single1 pending within)
    as [same_text [same_live [_ [_ same_ops]]]].
  assert (unchanged : st2 = advance_to t2 st1).
  { unfold st2, notify_at. rewrite <- shown at 1. rewrite <- same_text.
    apply setMessage_same. }
  rewrite unchanged. repeat split; auto.
  - exists (next_id (advance_to t1 st)). now rewrite same_live.
  - pose proof (advance_to_single st1 t2 single1) as single2.
    pose proof (advance_to_cases (advance_to t2 st1) (t1 + 4000) single2)
      as [_ [_ cases]].
    rewrite same_live, pending in cases.
    rewrite N.leb_refl in cases. apply cases.
Qed.

Lemma repeated_text_is_not_prolonged_witness :
  single_timer (mounted 0) /\ (clock (mounted 0) <= 0)%N /\
  message
    (advance_to 4000
       (notify_at 3000 "Failed to claim points."
          (notify_at 0 "Failed to claim points." (mounted 0)))) = "".
Proof.
  split; [exact I|]. split; [discriminate|].
  apply (repeated_text_is_not_prolonged (mounted 0) 0 3000
           "Failed to claim points.");
    try exact I; try discriminate; reflexivity.
Defined.

End TimerLife.
